(** * Statement editing core of stateautomation: a shallow embedding

    Models of [models/statement_schema.py], [processors/balance_calculator.py],
    [processors/date_sequencer.py], [processors/page_detector.py], the
    offline extractor of [parsers/llm_extractor.py] and the salary block of
    [main.py].

    Modelling conventions:
    - a Python [float] is a binary64 number, Rocq's primitive [float]; the
      [+] and [-] of amounts are [PrimFloat.add] and [PrimFloat.sub] (IEEE
      754 round-to-nearest-even, as CPython's);
    - [round(x, 2)] is [round2f]: as CPython's [float.__round__], the exact
      binary value of [x] is rounded half-even to a multiple of 0.01 and
      converted back to the nearest binary64 ([to_float]), keeping the sign
      of [x]; [inf] and [nan] are returned unchanged;
    - [float(s)] on a [str] is [py_float], following CPython's
      [PyFloat_FromString]: Unicode digits and spaces mapped to ASCII, [_]
      grouping, [_Py_dg_strtod] (correctly rounded, [inf] on overflow) and
      the [inf]/[nan] spellings;
    - the date sequencer computes with day counts: every float in it is
      far below 2^1023, where a binary64 operation is its exact result
      rounded to nearest-even with 53 significant bits, [fl] on rationals;
    - a [datetime.date] is its ordinal day number [Z], so [(a - b).days] is
      [a - b] and [d + timedelta(days=k)] is [d + k] (the [OverflowError] of
      a date outside years 1 to 9999 is not modelled);
    - a Python [str] is its list of code points ([list N]); the Unicode
      character classes are those of Python 3.11 (Unicode 14.0.0). *)

From Stdlib Require Import ZArith QArith Qround Qabs Qpower Lia Lqa String List Bool.
From Stdlib Require Import Sorted Permutation.
From Corelib Require Import PrimFloat.
From Corelib Require FloatOps SpecFloat.
Import ListNotations.

Local Set Warnings "-inexact-float".

Open Scope Z_scope.

(** ** Binary64 arithmetic *)

(** Round-half-even of a rational to an integer. *)
Definition round_half_even (y : Q) : Z :=
  let n := Qfloor y in
  match Qcompare (y - inject_Z n) (1 # 2) with
  | Lt => n
  | Gt => n + 1
  | Eq => if Z.even n then n else n + 1
  end.

(** [2 ^ k] as a rational, for any integer [k]. *)
Definition pow2 (k : Z) : Q := Qpower (inject_Z 2) k.

(** [floor(log2 x)], for [x > 0]. *)
Definition flog2 (x : Q) : Z :=
  let k := Z.log2 (Qnum x) - Z.log2 (Zpos (Qden x)) in
  if Qle_bool (pow2 k) x then k else k - 1.

(** Weight of the last of the 53 significant bits of the binary64 numbers
    around [x], no smaller than that of the subnormal numbers, [2 ^ -1074]. *)
Definition exp_of (x : Q) : Z := Z.max (flog2 (Qabs x) - 52) (-1074).

(** Rounding of a rational to the nearest binary64 value, ties to even,
    with an unbounded exponent range. *)
Definition fl (x : Q) : Q :=
  let e := exp_of x in (inject_Z (round_half_even (x / pow2 e)) * pow2 e)%Q.

(** The binary64 number nearest [x], ties to even: [inf] (with the sign of
    [x]) when the rounded value reaches [2 ^ 1024]. *)
Definition to_float (x : Q) : float :=
  let e := exp_of x in
  let m := round_half_even (x / pow2 e) in
  if Qle_bool (pow2 1024) (Qabs (inject_Z m * pow2 e)) then
    (if m <? 0 then PrimFloat.neg_infinity else PrimFloat.infinity)
  else
    FloatOps.SF2Prim
      (match m with
       | Zpos p => SpecFloat.S754_finite false p e
       | Zneg p => SpecFloat.S754_finite true p e
       | Z0 => SpecFloat.S754_zero false
       end).

(** The exact value of a finite binary64 number ([0] for [inf] and [nan]). *)
Definition float_to_Q (x : float) : Q :=
  match FloatOps.Prim2SF x with
  | SpecFloat.S754_finite s m e =>
      let v := (inject_Z (Zpos m) * pow2 e)%Q in if s then (- v)%Q else v
  | _ => 0%Q
  end.

(** [round(x, 2)] on a float ([float.__round__] with [ndigits = 2]). *)
Definition round2f (x : float) : float :=
  if PrimFloat.is_finite x then
    let r := round_half_even (float_to_Q (PrimFloat.abs x) * 100) # 100 in
    let y := to_float r in
    if PrimFloat.get_sign x then PrimFloat.opp y else y
  else x.

(** Relative rounding error of binary64, [2 ^ -53]. *)
Definition u53 : Q := 1 # 9007199254740992.

(** ** models/statement_schema.py *)

Record Header := mkHeader {
  bank_name : option string;
  account_holder : string;
  account_number : string;
  ifsc : option string;
  micr : option string;
  branch : option string;
  statement_period : option string;
  address : option string
}.

Record Transaction := mkTransaction {
  date : Z;
  description : string;
  credit : float;
  debit : float;
  balance : float;
  ref : option string;
  original_date : option Z
}.

Record PageRange := mkPageRange {
  start : Z;
  end_ : Z;
  page_type : string
}.

(** [extra_columns : Dict[str, List[Any]]] is kept as an association list;
    its values are opaque to every operation modelled here. *)
Record BankStatement := mkBankStatement {
  header : Header;
  transactions : list Transaction;
  original_page_ranges : list PageRange;
  extra_columns : list (string * list string);
  opening_balance : float;
  closing_balance : float;
  total_credits : float;
  total_debits : float
}.

(** Construction of a [Transaction] (pydantic model validation): the
    [round_amounts] field validator runs on [credit], [debit], [balance]. *)
Definition Transaction_validate (date0 : Z) (description0 : string)
    (credit0 debit0 balance0 : float) (ref0 : option string)
    (original_date0 : option Z) : Transaction :=
  mkTransaction date0 description0 (round2f credit0) (round2f debit0)
    (round2f balance0) ref0 original_date0.

(** Attribute assignment on a [Transaction]: the model has no
    [validate_assignment] configuration, so pydantic's [__setattr__] stores
    the value as given, without running the field validators. *)
Definition set_date (t : Transaction) (v : Z) : Transaction :=
  mkTransaction v (description t) (credit t) (debit t) (balance t) (ref t)
    (original_date t).

Definition set_credit (t : Transaction) (v : float) : Transaction :=
  mkTransaction (date t) (description t) v (debit t) (balance t) (ref t)
    (original_date t).

Definition set_debit (t : Transaction) (v : float) : Transaction :=
  mkTransaction (date t) (description t) (credit t) v (balance t) (ref t)
    (original_date t).

Definition set_balance (t : Transaction) (v : float) : Transaction :=
  mkTransaction (date t) (description t) (credit t) (debit t) v (ref t)
    (original_date t).

Definition set_original_date (t : Transaction) (v : option Z) : Transaction :=
  mkTransaction (date t) (description t) (credit t) (debit t) (balance t)
    (ref t) v.

(** Attribute assignment [statement.transactions = v] on a [BankStatement]
    (also what an in-place change of the list amounts to). *)
Definition set_transactions (s : BankStatement) (v : list Transaction) :
    BankStatement :=
  mkBankStatement (header s) v (original_page_ranges s) (extra_columns s)
    (opening_balance s) (closing_balance s) (total_credits s) (total_debits s).

(** ** processors/balance_calculator.py *)

Module BalanceCalculator.

(** The [for txn in statement.transactions] loop, threading
    [(running_balance, total_credits, total_debits)]. *)
Fixpoint recalc_loop (running_balance total_credits0 total_debits0 : float)
    (txns : list Transaction) : list Transaction * (float * float * float) :=
  match txns with
  | [] => ([], (running_balance, total_credits0, total_debits0))
  | txn :: rest =>
      let running1 := PrimFloat.add running_balance (credit txn) in
      let running2 := PrimFloat.sub running1 (debit txn) in
      let txn' := set_balance txn (round2f running2) in
      let '(rest', acc) :=
        recalc_loop running2 (PrimFloat.add total_credits0 (credit txn))
          (PrimFloat.add total_debits0 (debit txn)) rest in
      (txn' :: rest', acc)
  end.

Definition recalculate (statement : BankStatement) : BankStatement :=
  let '(txns', (running_balance, tc, td)) :=
    recalc_loop (opening_balance statement) 0.0%float 0.0%float
      (transactions statement) in
  mkBankStatement (header statement) txns' (original_page_ranges statement)
    (extra_columns statement) (opening_balance statement)
    (round2f running_balance) (round2f tc) (round2f td).

End BalanceCalculator.

(** ** processors/date_sequencer.py *)

Module DateSequencer.

(** Python's [int(x)] on a float: truncation toward zero. *)
Definition trunc (x : Q) : Z :=
  if Qle_bool 0 x then Qfloor x else - Qfloor (- x).

(** [enumerate]-style map. *)
Fixpoint mapi_from {A B} (f : nat -> A -> B) (i : nat) (l : list A) : list B :=
  match l with
  | [] => []
  | x :: rest => f i x :: mapi_from f (S i) rest
  end.

(** [total_days / (num_txns - 1)] is a float division and [i * day_interval]
    a float product (the integer [i] converted to float first). *)
Definition _uniform_distribution (transactions0 : list Transaction)
    (start_date end_date : Z) : list Transaction :=
  let num_txns := List.length transactions0 in
  let total_days := end_date - start_date in
  if Nat.eqb num_txns 1 then
    match transactions0 with
    | t :: rest => set_date t start_date :: rest
    | [] => []
    end
  else
    let day_interval :=
      fl (inject_Z total_days / inject_Z (Z.of_nat num_txns - 1))%Q in
    mapi_from (fun i txn =>
      let days_offset := trunc (fl (fl (inject_Z (Z.of_nat i)) * day_interval)%Q) in
      set_date txn (start_date + days_offset)) 0 transactions0.

(** [None] stands for the [ValueError] that [min] raises on an empty list;
    [sequence_dates] never calls this function on one. *)
Definition _preserve_spacing (transactions0 : list Transaction)
    (start_date end_date : Z) : option (list Transaction) :=
  let original_dates := map date transactions0 in
  if Nat.eqb (List.length (nodup Z.eq_dec original_dates)) 1 then
    Some (_uniform_distribution transactions0 start_date end_date)
  else
    match original_dates with
    | [] => None
    | d :: ds =>
        let min_orig := fold_left Z.min ds d in
        let max_orig := fold_left Z.max ds d in
        let orig_range := max_orig - min_orig in
        let new_range := end_date - start_date in
        if Z.eqb orig_range 0 then
          Some (_uniform_distribution transactions0 start_date end_date)
        else
          let scale_factor := fl (inject_Z new_range / inject_Z orig_range)%Q in
          Some (map (fun txn =>
            let days_from_start := date txn - min_orig in
            let new_days :=
              trunc (fl (fl (inject_Z days_from_start) * scale_factor)%Q) in
            set_date txn (start_date + new_days)) transactions0)
    end.

(** Day assigned to position [i] by [_uniform_distribution] on a list of
    length [n]. *)
Definition uniform_day (n : nat) (start_date end_date : Z) (i : nat) : Z :=
  if Nat.eqb n 1 then start_date
  else start_date + trunc (fl (fl (inject_Z (Z.of_nat i)) *
         fl (inject_Z (end_date - start_date) / inject_Z (Z.of_nat n - 1)))%Q).

Definition sequence_dates (transactions0 : list Transaction)
    (start_date end_date : Z) (method : string) : option (list Transaction) :=
  match transactions0 with
  | [] => Some transactions0
  | _ =>
      let stored :=
        map (fun txn => set_original_date txn (Some (date txn))) transactions0 in
      if String.eqb method "preserve_spacing" then
        _preserve_spacing stored start_date end_date
      else
        Some (_uniform_distribution stored start_date end_date)
  end.

End DateSequencer.

(** ** parsers/llm_extractor.py: the offline extractor [_extract_with_rules] *)

Module LLMExtractor.

Local Open Scope N_scope.

(** A Python [str], as its code points. *)
Definition pystr := list N.

(** An ASCII Rocq string literal as a Python [str]. *)
Definition of_ascii (s : string) : pystr :=
  map (fun c => Ascii.N_of_ascii c) (list_ascii_of_string s).

(** [str.isspace] on one code point ([Py_UNICODE_ISSPACE]), i.e. the class
    [\s] of [re] on [str]. *)
Definition py_isspace (c : N) : bool :=
  ((9 <=? c) && (c <=? 13)) || ((28 <=? c) && (c <=? 32)) ||
  (c =? 133) || (c =? 160) || (c =? 5760) ||
  ((8192 <=? c) && (c <=? 8202)) || (c =? 8232) || (c =? 8233) ||
  (c =? 8239) || (c =? 8287) || (c =? 12288).

(** Line boundaries of [str.splitlines] ([\r\n] is handled as one). *)
Definition is_line_break (c : N) : bool :=
  ((10 <=? c) && (c <=? 13)) || ((28 <=? c) && (c <=? 30)) ||
  (c =? 133) || (c =? 8232) || (c =? 8233).

Fixpoint splitlines_aux (cur : pystr) (s : pystr) : list pystr :=
  match s with
  | [] => match cur with [] => [] | _ => [rev cur] end
  | c :: r =>
      if c =? 13 then
        match r with
        | c' :: r' => if c' =? 10 then rev cur :: splitlines_aux [] r'
                      else rev cur :: splitlines_aux [] r
        | [] => [rev cur]
        end
      else if is_line_break c then rev cur :: splitlines_aux [] r
      else splitlines_aux (c :: cur) r
  end.

Definition splitlines (s : pystr) : list pystr := splitlines_aux [] s.

Fixpoint lstrip (s : pystr) : pystr :=
  match s with
  | c :: r => if py_isspace c then lstrip r else s
  | [] => []
  end.

Definition strip (s : pystr) : pystr := rev (lstrip (rev (lstrip s))).

(** [str.startswith(p)]. *)
Fixpoint startswith (s p : pystr) : bool :=
  match p, s with
  | [], _ => true
  | c :: p', d :: s' => (c =? d) && startswith s' p'
  | _ :: _, [] => false
  end.

(** [str.endswith(p)]. *)
Definition endswith (s p : pystr) : bool := startswith (rev s) (rev p).

(** *** [float(str)] *)

(** First code points of the 66 runs of ten decimal digits (general
    category Nd: 660 code points); the digit [d] of the run starting at [s]
    is [s + d]. *)
Definition decimal_starts : list N :=
  [48; 1632; 1776; 1984; 2406; 2534; 2662; 2790; 2918; 3046; 3174; 3302;
   3430; 3558; 3664; 3792; 3872; 4160; 4240; 6112; 6160; 6470; 6608; 6784;
   6800; 6992; 7088; 7232; 7248; 42528; 43216; 43264; 43472; 43504; 43600;
   44016; 65296; 66720; 68912; 69734; 69872; 69942; 70096; 70384; 70736;
   70864; 71248; 71360; 71472; 71904; 72016; 72784; 73040; 73120; 92768;
   92864; 93008; 120782; 120792; 120802; 120812; 120822; 123200; 123632;
   125264; 130032].

Fixpoint find_run (c : N) (starts : list N) : option N :=
  match starts with
  | [] => None
  | s :: r => if (s <=? c) && (c <? s + 10) then Some (c - s) else find_run c r
  end.

(** [Py_UNICODE_TODECIMAL]: the value of a decimal digit, [None] for any
    other character. *)
Definition decimal_value (c : N) : option N := find_run c decimal_starts.

(** [str.isdecimal] on one code point, i.e. the class [\d] of [re] on
    [str]. *)
Definition is_decimal (c : N) : bool :=
  match decimal_value c with Some _ => true | None => false end.

(** [_PyUnicode_TransformDecimalAndSpaceToASCII] on one code point:
    characters below 127 are kept, other spaces become [' '], other decimal
    digits their ASCII digit; [None] is any other character, which the
    function replaces by ['?'], so that the conversion fails.  (An ASCII
    string is returned unchanged; its only character left out here, [DEL],
    cannot occur in a number either.) *)
Definition to_ascii_char (c : N) : option N :=
  if c <? 127 then Some c
  else if py_isspace c then Some 32
  else match decimal_value c with Some d => Some (48 + d) | None => None end.

Fixpoint to_ascii (s : pystr) : option pystr :=
  match s with
  | [] => Some []
  | c :: r =>
      match to_ascii_char c, to_ascii r with
      | Some a, Some r' => Some (a :: r')
      | _, _ => None
      end
  end.

(** ASCII decimal digits ([Py_ISDIGIT]). *)
Definition is_digit (c : N) : bool := (48 <=? c) && (c <=? 57).

(** The check of [_Py_string_to_number_with_underscores]: every [_] is
    preceded by a digit and followed by a digit; [prev] is the previous
    character ([0] at the start). *)
Fixpoint underscores_ok (prev : N) (s : pystr) : bool :=
  match s with
  | [] => negb (prev =? 95)
  | c :: r =>
      if c =? 95 then is_digit prev && underscores_ok c r
      else if prev =? 95 then is_digit c && underscores_ok c r
      else underscores_ok c r
  end.

(** ASCII whitespace ([Py_ISSPACE]), stripped by [_Py_string_to_number_with_underscores]'s
    caller [float_from_string_inner]. *)
Definition is_cspace (c : N) : bool := (c =? 32) || ((9 <=? c) && (c <=? 13)).

Fixpoint lstrip_c (s : pystr) : pystr :=
  match s with
  | c :: r => if is_cspace c then lstrip_c r else s
  | [] => []
  end.

(** An optional sign; [true] for [-]. *)
Definition parse_sign (s : pystr) : bool * pystr :=
  match s with
  | c :: r => if c =? 45 then (true, r) else if c =? 43 then (false, r) else (false, s)
  | [] => (false, s)
  end.

Fixpoint span_zeros (s : pystr) : nat * pystr :=
  match s with
  | c :: r => if c =? 48 then let '(k, rest) := span_zeros r in (S k, rest) else (O, s)
  | [] => (O, [])
  end.

Fixpoint span_digits (s : pystr) : pystr * pystr :=
  match s with
  | c :: r =>
      if is_digit c then let '(ds, rest) := span_digits r in (c :: ds, rest)
      else ([], s)
  | [] => ([], [])
  end.

(** Value of a string of decimal digits, each counting as its
    [decimal_value]. *)
Definition digits_value (ds : pystr) : Z :=
  fold_left (fun acc c =>
    acc * 10 + Z.of_N (match decimal_value c with Some d => d | None => 0 end))%Z
    ds 0%Z.

(** The exponent part of [_Py_dg_strtod]: [e] or [E], an optional sign and
    digits; an exponent beyond [MAX_ABS_EXP = 1100000000] (or with more than
    [MAX_DIGITS = 9] significant digits) is replaced by it; with no digit at
    all the [e] is not part of the number. *)
Definition parse_exponent (s : pystr) : Z * pystr :=
  match s with
  | c :: r =>
      if (c =? 101) || (c =? 69) then
        let '(eneg, r1) := parse_sign r in
        let '(lz, r2) := span_zeros r1 in
        let '(ds, r3) := span_digits r2 in
        match lz, ds with
        | O, [] => (0%Z, s)
        | _, _ =>
            let abs_exp := digits_value ds in
            let e := if Nat.ltb 9 (List.length ds) || (1100000000 <? abs_exp)%Z
                     then 1100000000%Z else abs_exp in
            ((if eneg then - e else e)%Z, r3)
        end
      else (0%Z, s)
  | [] => (0%Z, s)
  end.

(** The value [_Py_dg_strtod] gives to [D * 10 ^ e], [D] a natural number
    written with [nd] digits, the first one non-zero: the correctly rounded
    binary64 number, [to_float (D * 10 ^ e)].  The two early exits keep the
    model executable on huge exponents and give the same result
    ([dec_to_float_spec]): [D * 10 ^ e >= 10 ^ (nd - 1 + e) >= 10 ^ 309] is
    beyond the largest float and [D * 10 ^ e < 10 ^ (nd + e) <= 10 ^ -324]
    below half the smallest one. *)
Definition dec_to_float (D nd e : Z) : float :=
  if (D =? 0)%Z then PrimFloat.zero
  else if (309 <=? nd - 1 + e)%Z then PrimFloat.infinity
  else if (nd + e <=? -324)%Z then PrimFloat.zero
  else to_float (inject_Z D * Qpower (inject_Z 10) e)%Q.

(** [_Py_dg_strtod]: the number at the start of [s] and the rest of [s];
    [None] when no number starts there.  Leading zeros are not significant
    digits; more than [MAX_DIGITS = 1000000000] digits is a parse error. *)
Definition strtod (s : pystr) : option (float * pystr) :=
  let '(neg, s1) := parse_sign s in
  let '(lz1, s2) := span_zeros s1 in
  let '(ip, s3) := span_digits s2 in
  let '(lz2, fp, s4) :=
    match s3 with
    | c :: r =>
        if c =? 46 then
          match ip with
          | [] => let '(z, r1) := span_zeros r in
                  let '(f, r2) := span_digits r1 in (z, f, r2)
          | _ :: _ => let '(f, r2) := span_digits r in (O, f, r2)
          end
        else (O, [], s3)
    | [] => (O, [], s3)
    end in
  let ndigits := Z.of_nat (List.length ip + List.length fp) in
  let fraclen := Z.of_nat (lz2 + List.length fp) in
  if (ndigits =? 0)%Z && Nat.eqb (lz1 + lz2) 0 then None
  else if (1000000000 <? ndigits)%Z || (1000000000 <? fraclen)%Z then None
  else
    let '(e, s5) := parse_exponent s4 in
    let x := dec_to_float (digits_value (ip ++ fp)) ndigits (e - fraclen) in
    Some (if neg then PrimFloat.opp x else x, s5).

(** [Py_TOLOWER]. *)
Definition lower (c : N) : N := if (65 <=? c) && (c <=? 90) then c + 32 else c.

(** [_Py_parse_inf_or_nan]: [inf], [infinity] or [nan] in any case, after
    an optional sign (the sign of a [nan] is not modelled). *)
Definition parse_inf_or_nan (s : pystr) : option (float * pystr) :=
  let '(neg, s1) := parse_sign s in
  if startswith (map lower s1) (of_ascii "inf") then
    let s2 := skipn 3 s1 in
    let s3 := if startswith (map lower s2) (of_ascii "inity") then skipn 5 s2 else s2 in
    Some (if neg then PrimFloat.neg_infinity else PrimFloat.infinity, s3)
  else if startswith (map lower s1) (of_ascii "nan") then Some (PrimFloat.nan, skipn 3 s1)
  else None.

(** [float(s)] on a [str] ([PyFloat_FromString]); [None] is the
    [ValueError] it raises. *)
Definition py_float (s : pystr) : option float :=
  match to_ascii s with
  | None => None
  | Some a =>
      if existsb (fun c => c =? 0) a || negb (underscores_ok 0 a) then None
      else
        match rev (lstrip_c (rev (lstrip_c (filter (fun c => negb (c =? 95)) a)))) with
        | [] => None
        | t =>
            match match strtod t with Some r => Some r | None => parse_inf_or_nan t end with
            | Some (x, []) => Some x
            | _ => None
            end
        end
  end.

(** *** The row parser *)

(** Characters removed by [re.sub(r"[₹$,\s]", "", text)]. *)
Definition amount_junk (c : N) : bool :=
  (c =? 8377) || (c =? 36) || (c =? 44) || py_isspace c.

(** The nested [_parse_amount]: [None] is a group that did not participate
    in the match; the [try]/[except] turns a failed [float] into [0.0]. *)
Definition _parse_amount (text : option pystr) : float :=
  match text with
  | None | Some [] => 0.0%float
  | Some t =>
      let cleaned := filter (fun c => negb (amount_junk c)) t in
      match py_float cleaned with
      | Some v => round2f v
      | None => 0.0%float
      end
  end.

(** Truth value of a float: false exactly for [0.0] and [-0.0]. *)
Definition py_truthy (x : float) : bool := negb (PrimFloat.eqb x 0.0%float).

(** [credit = a1 if a1 and not a2 else (a1 if (a1 and a2 == 0) else 0.0)] *)
Definition decide_credit (a1 a2 : float) : float :=
  if py_truthy a1 && negb (py_truthy a2) then a1
  else if py_truthy a1 && PrimFloat.eqb a2 0.0%float then a1 else 0.0%float.

(** [debit = a2 if a2 and not a1 else (a2 if (a2 and a1 == 0) else 0.0)] *)
Definition decide_debit (a1 a2 : float) : float :=
  if py_truthy a2 && negb (py_truthy a1) then a2
  else if py_truthy a2 && PrimFloat.eqb a1 0.0%float then a2 else 0.0%float.

(** The named groups of a successful [txn_pattern.match]. *)
Record RowMatch := mkRowMatch {
  m_date : pystr;
  m_desc : pystr;
  m_amount1 : option pystr;
  m_amount2 : option pystr;
  m_balance : option pystr
}.

(** A transaction dict of the payload. *)
Record TxnDict := mkTxnDict {
  d_date : pystr;
  d_description : pystr;
  d_credit : float;
  d_debit : float;
  d_balance : float;
  d_ref : option pystr
}.

Record HeaderDict := mkHeaderDict {
  h_bank_name : pystr;
  h_account_holder : pystr;
  h_account_number : pystr;
  h_ifsc : option pystr;
  h_micr : option pystr;
  h_branch : option pystr;
  h_statement_period : option pystr;
  h_address : option pystr
}.

Record Payload := mkPayload {
  p_header : HeaderDict;
  p_transactions : list TxnDict;
  p_opening_balance : float;
  p_closing_balance : float
}.

(** The body of the row loop for a matched line. *)
Definition build_row (m : RowMatch) : TxnDict :=
  let a1 := _parse_amount (m_amount1 m) in
  let a2 := _parse_amount (m_amount2 m) in
  let bal := _parse_amount (m_balance m) in
  mkTxnDict (m_date m) (m_desc m) (decide_credit a1 a2) (decide_debit a1 a2)
    bal None.

Definition set_d_balance (t : TxnDict) (v : float) : TxnDict :=
  mkTxnDict (d_date t) (d_description t) (d_credit t) (d_debit t) v (d_ref t).

(** The balance backfill loop, threading [running]; [t["balance"] == 0.0]
    is float equality. *)
Fixpoint backfill (running : float) (txns : list TxnDict) : list TxnDict :=
  match txns with
  | [] => []
  | t :: rest =>
      if PrimFloat.eqb (d_balance t) 0.0%float then
        let running' := PrimFloat.sub (PrimFloat.add running (d_credit t)) (d_debit t) in
        set_d_balance t (round2f running') :: backfill running' rest
      else t :: backfill (d_balance t) rest
  end.

(** [x or default] on an optional string. *)
Definition py_or (x : option pystr) (default : pystr) : pystr :=
  match x with
  | Some ((_ :: _) as s) => s
  | _ => default
  end.

Definition placeholder (today : pystr) (opening_balance0 : float) : TxnDict :=
  mkTxnDict today (of_ascii "Parsed with offline rules") 0.0%float 0.0%float
    opening_balance0 None.

(** [str.index(c)]: the position of the first [c] (called only when [c]
    occurs, so the [ValueError] branch is never taken). *)
Fixpoint index_of (c : N) (s : pystr) : nat :=
  match s with
  | [] => O
  | d :: r => if d =? c then O else S (index_of c r)
  end.

(** [str.rindex(c)]: the position of the last [c]. *)
Definition rindex_of (c : N) (s : pystr) : nat :=
  (List.length s - 1 - index_of c (rev s))%nat.

Section CleanJson.

(** [json.loads]: [None] is the [JSONDecodeError] it raises. *)
Variable J : Type.
Variable json_loads : pystr -> option J.

(** [_clean_json_response]; [None] is an exception leaving it (the second
    [json.loads] is not guarded). *)
Definition _clean_json_response (content : pystr) : option J :=
  let content1 := strip content in
  let content2 :=
    if startswith content1 (of_ascii "```json") then skipn 7 content1
    else if startswith content1 (of_ascii "```") then skipn 3 content1
    else content1 in
  let content3 :=
    if endswith content2 (of_ascii "```")
    then firstn (List.length content2 - 3) content2 else content2 in
  let content4 := strip content3 in
  match json_loads content4 with
  | Some v => Some v
  | None =>
      let content5 :=
        if existsb (fun c => c =? 123) content4
        then skipn (index_of 123 content4) content4 else content4 in
      let content6 :=
        if existsb (fun c => c =? 125) content5
        then firstn (rindex_of 125 content5 + 1) content5 else content5 in
      json_loads content6
  end.

End CleanJson.

Section Extract.

(** The regular-expression engine is left abstract: [_find patterns lines]
    is the nested [_find] (first pattern, then first line, with a
    case-insensitive [re.search] match; group 1 stripped), and
    [txn_match ln] is [txn_pattern.match(ln)]; [today] is
    [datetime.today().strftime("%Y-%m-%d")]. *)
Variable _find : list string -> list pystr -> option pystr.
Variable txn_match : pystr -> option RowMatch.
Variable today : pystr.

Definition text_lines (raw_text : pystr) : list pystr :=
  map strip (filter (fun ln => match strip ln with [] => false | _ => true end)
               (splitlines raw_text)).

Definition _extract_with_rules (raw_text : pystr) : Payload :=
  let lines := text_lines raw_text in
  let account_holder0 :=
    _find ["account\s*holder[:\-]\s*(.+)"; "holder[:\-]\s*(.+)"]%string lines in
  let account_number0 :=
    _find ["account\s*number[:\-]\s*([\w\- ]+)"; "a/c\s*no[:\-]\s*([\w\- ]+)"]%string
      lines in
  let bank_name0 := _find ["bank[:\-]\s*(.+)"; "(.+?)\s+bank\b"]%string lines in
  let ifsc0 := _find ["ifsc[:\-]\s*([A-Z0-9]{5,})"]%string lines in
  let branch0 := _find ["branch[:\-]\s*(.+)"]%string lines in
  let ob_match :=
    _find ["opening\s*balance[:\-]\s*([₹$]?[\d,]+(?:\.\d{1,2})?)"]%string lines in
  let opening_balance0 :=
    match ob_match with
    | Some ((_ :: _) as m) => _parse_amount (Some m)
    | _ => 0.0%float
    end in
  let transactions0 :=
    fold_right (fun ln acc =>
      match txn_match ln with
      | Some m => build_row m :: acc
      | None => acc
      end) [] lines in
  let '(transactions1, closing_balance0) :=
    match transactions0 with
    | [] => ([], 0.0%float)
    | _ :: _ =>
        let filled := backfill opening_balance0 transactions0 in
        (filled, last (map d_balance filled) 0.0%float)
    end in
  let header0 :=
    mkHeaderDict (py_or bank_name0 (of_ascii "Unknown Bank"))
      (py_or account_holder0 (of_ascii "Unknown"))
      (filter (fun c => negb (c =? 32)) (py_or account_number0 (of_ascii "0000000000")))
      ifsc0 None branch0 None None in
  mkPayload header0
    (match transactions1 with
     | [] => [placeholder today opening_balance0]
     | _ => transactions1
     end)
    opening_balance0
    (match transactions1 with [] => opening_balance0 | _ => closing_balance0 end).

(** The online path of [extract_structured_data] is left abstract:
    [online_query provider text] stands for [_build_prompt], the API call of
    [provider] and [_clean_json_response] on the (truncated) text, [None]
    when one of them raises.  [_extract_with_rules] never raises (its only
    fallible step, [float], is guarded), so the [_get_dummy_data] fallback of
    the offline branch is never reached and is not modelled. *)
Variable J : Type.
Variable online_query : string -> pystr -> option J.

(** [extract_structured_data]: [inl] is the JSON object of the online path,
    [inr] the payload of the offline rules. *)
Definition extract_structured_data (online_enabled : bool) (provider : string)
    (raw_text : pystr) : J + Payload :=
  let max_chars := 15000%nat in
  let raw_text1 :=
    if Nat.ltb max_chars (List.length raw_text) then firstn max_chars raw_text
    else raw_text in
  let offline := inr (_extract_with_rules raw_text1) in
  if online_enabled &&
     (String.eqb provider "groq" || String.eqb provider "gemini") then
    match online_query provider raw_text1 with
    | Some json_data => inl json_data
    | None => offline
    end
  else offline.

End Extract.

End LLMExtractor.

(** ** main.py: the salary block of [edit_statement] *)

Module EditStatement.

(** [list.sort(key=lambda x: x.date)] is a stable sort: insertion sort
    placing each element after the ones with a date not later than its own
    gives the same list. *)
Fixpoint insert_by_date (t : Transaction) (l : list Transaction) :
    list Transaction :=
  match l with
  | [] => [t]
  | x :: r => if date t <? date x then t :: l else x :: insert_by_date t r
  end.

Definition sort_by_date (l : list Transaction) : list Transaction :=
  fold_left (fun acc t => insert_by_date t acc) l [].

(** [if edit_request.salary_amount and edit_request.salary_date:] append a
    new [Transaction] and sort by date (a [date] object is always truthy). *)
Definition add_salary (txns : list Transaction) (salary_amount : option float)
    (salary_date : option Z) (salary_description : string) :
    list Transaction :=
  match salary_amount, salary_date with
  | Some a, Some d =>
      if LLMExtractor.py_truthy a then
        let salary_txn :=
          Transaction_validate d salary_description a 0.0%float 0.0%float None None in
        sort_by_date (txns ++ [salary_txn])
      else txns
  | _, _ => txns
  end.

End EditStatement.

(** ** processors/page_detector.py *)

Module PageDetector.

(** [[pr for pr in page_ranges if pr.page_type in ["statement", "attachment"]]] *)
Definition filter_relevant_pages (page_ranges : list PageRange) : list PageRange :=
  filter (fun pr => String.eqb (page_type pr) "statement"
                    || String.eqb (page_type pr) "attachment") page_ranges.

(** [range(a, b)]: empty when [b <= a]. *)
Definition py_range (a b : Z) : list Z :=
  map (fun k => a + Z.of_nat k) (seq 0 (Z.to_nat (b - a))).

(** Adding one element to a strictly increasing list without duplicates. *)
Fixpoint insert_unique (x : Z) (l : list Z) : list Z :=
  match l with
  | [] => [x]
  | y :: r => if x <? y then x :: l else if x =? y then l else y :: insert_unique x r
  end.

(** [sorted(set(pages))]: the distinct elements in increasing order. *)
Definition sorted_set (pages : list Z) : list Z := fold_right insert_unique [] pages.

(** [get_page_numbers]: the loop extending [pages] with
    [range(pr.start, pr.end + 1)], then [sorted(set(pages))]. *)
Definition get_page_numbers (page_ranges : list PageRange) : list Z :=
  let pages := fold_left (fun pages pr => pages ++ py_range (start pr) (end_ pr + 1))
                 page_ranges [] in
  sorted_set pages.

End PageDetector.

(** ** Helper notions for amounts *)

(** Left-to-right float sum [0.0 + x0 + x1 + ...], as the loop accumulates
    the totals. *)
Definition fsum (xs : list float) : float := fold_left PrimFloat.add xs 0.0%float.

(** The running balance after the given transactions, as the loop
    computes it from the opening balance [b]. *)
Definition running_after (b : float) (txns : list Transaction) : float :=
  fold_left (fun r t => PrimFloat.sub (PrimFloat.add r (credit t)) (debit t)) txns b.

(** Balance before transaction [i] of a recalculated statement: the opening
    balance for [i = 0], the balance of transaction [i - 1] otherwise. *)
Definition prev_balance (s : BankStatement) (i : nat) : float :=
  match i with
  | O => opening_balance s
  | S k =>
      match nth_error (transactions s) k with
      | Some p => balance p
      | None => 0.0%float
      end
  end.

(** A transaction with its [balance] field cleared. *)
Definition strip (t : Transaction) : Transaction := set_balance t 0.0%float.

(** ** Concrete statements used by the examples *)

Definition example_header : Header :=
  mkHeader (Some "Unknown Bank"%string) "John Doe" "123456789" None None None
    None None.

Definition example_txn (d : Z) (desc : string) (c db : float) : Transaction :=
  Transaction_validate d desc c db 0.0%float None None.

Definition example_statement (b : float) (txns : list Transaction) : BankStatement :=
  mkBankStatement example_header txns [] [] b 0.0%float 0.0%float 0.0%float.

(** The scenario of the spec: opening 1000.00, a credit of 1000 on
    2024-01-01 (ordinal 738886) and a debit of 200 on 2024-01-05. *)
Definition scenario_statement : BankStatement :=
  example_statement 1000.0%float
    [example_txn 738886 "Salary" 1000.0%float 0.0%float;
     example_txn 738890 "ATM" 0.0%float 200.0%float].

(** An opening balance of 2^50 = 1125899906842624.00 and two credits of
    0.13: at that magnitude binary64 numbers are multiples of 0.25. *)
Definition large_statement : BankStatement :=
  example_statement 1125899906842624.0%float
    [example_txn 738886 "Interest" 0.13%float 0.0%float;
     example_txn 738887 "Interest" 0.13%float 0.0%float].

(** A transaction whose [credit] and [debit] were assigned after
    construction (the edit endpoint's [setattr]), so they were never
    rounded: credit 0.006, debit 0.004. *)
Definition unrounded_statement : BankStatement :=
  example_statement 0.0%float
    [set_debit (set_credit (example_txn 738886 "Edited" 0.0%float 0.0%float) 0.006%float)
       0.004%float].

(** Two transactions listed out of chronological order: 2024-01-05
    (ordinal 738890) before 2024-01-01 (ordinal 738886). *)
Definition unsorted_txns : list Transaction :=
  [example_txn 738890 "Later" 0.0%float 0.0%float;
   example_txn 738886 "Earlier" 0.0%float 0.0%float].

(** Three transactions all dated 2024-01-01. *)
Definition same_day_txns : list Transaction :=
  [example_txn 738886 "A" 0.0%float 0.0%float; example_txn 738886 "B" 0.0%float 0.0%float;
   example_txn 738886 "C" 0.0%float 0.0%float].

(** A row [2024-01-01 Fee 0.00 50.00 0.00] as [txn_pattern] splits it:
    [amount1 = "0.00"], [amount2 = "50.00"], [balance = "0.00"]. *)
Definition fee_row : LLMExtractor.RowMatch :=
  LLMExtractor.mkRowMatch (LLMExtractor.of_ascii "2024-01-01")
    (LLMExtractor.of_ascii "Fee") (Some (LLMExtractor.of_ascii "0.00"))
    (Some (LLMExtractor.of_ascii "50.00")) (Some (LLMExtractor.of_ascii "0.00")).

(** The row [2024-01-01 Salary 1000.00 0.00 2000.00] of the spec. *)
Definition salary_row : LLMExtractor.RowMatch :=
  LLMExtractor.mkRowMatch (LLMExtractor.of_ascii "2024-01-01")
    (LLMExtractor.of_ascii "Salary") (Some (LLMExtractor.of_ascii "1000.00"))
    (Some (LLMExtractor.of_ascii "0.00")) (Some (LLMExtractor.of_ascii "2000.00")).


(** ** Lemmas on the rounding model *)

Section FlLemmas.
Local Open Scope Q_scope.

Lemma pow2_pos (k : Z) : 0 < pow2 k.
Proof. apply Qpower_0_lt. reflexivity. Qed.

Lemma pow2_add (a b : Z) : pow2 (a + b) == pow2 a * pow2 b.
Proof. apply Qpower_plus. discriminate. Qed.

Lemma pow2_le (a b : Z) : (a <= b)%Z -> pow2 a <= pow2 b.
Proof. intros H. apply Qpower_le_compat_l; [exact H | discriminate]. Qed.

Lemma pow2_lt (a b : Z) : (a < b)%Z -> pow2 a < pow2 b.
Proof. intros H. apply Qpower_lt_compat_l; [exact H | reflexivity]. Qed.

Lemma pow2_le_inv (a b : Z) : pow2 a <= pow2 b -> (a <= b)%Z.
Proof.
  intros H. destruct (Z.le_gt_cases a b) as [|Hlt]; [assumption|].
  exfalso. apply (Qlt_not_le _ _ (pow2_lt b a Hlt)). exact H.
Qed.

Lemma pow2_Z (k : Z) : (0 <= k)%Z -> pow2 k == inject_Z (2 ^ k).
Proof. intros H. unfold pow2. symmetry. apply Zpower_Qpower. exact H. Qed.

Lemma pow2_succ (k : Z) : pow2 (k + 1) == pow2 k * 2.
Proof. rewrite pow2_add. reflexivity. Qed.

Lemma flog2_spec (x : Q) : 0 < x -> pow2 (flog2 x) <= x < pow2 (flog2 x + 1).
Proof.
  intros Hx. destruct x as [a b]. unfold Qlt in Hx. simpl in Hx.
  assert (Ha : (0 < a)%Z) by lia.
  set (la := Z.log2 a). set (lb := Z.log2 (Zpos b)).
  destruct (Z.log2_spec a Ha) as [Ha1 Ha2].
  destruct (Z.log2_spec (Zpos b) eq_refl) as [Hb1 Hb2].
  fold la in Ha1, Ha2. fold lb in Hb1, Hb2.
  assert (Hla : (0 <= la)%Z) by apply Z.log2_nonneg.
  assert (Hlb : (0 <= lb)%Z) by apply Z.log2_nonneg.
  assert (Heq : a # b == inject_Z a / inject_Z (Zpos b)).
  { unfold Qdiv, Qeq. simpl. lia. }
  assert (Hbpos : 0 < inject_Z (Zpos b)) by (unfold Qlt; simpl; lia).
  (* a # b < 2^(la - lb + 1) and 2^(la - lb - 1) < a # b *)
  assert (Hup : a # b < pow2 (la - lb + 1)).
  { rewrite Heq. apply Qlt_shift_div_r; [exact Hbpos|].
    apply Qlt_le_trans with (pow2 (la - lb + 1) * pow2 lb).
    - rewrite <- pow2_add. replace (la - lb + 1 + lb)%Z with (Z.succ la) by lia.
      rewrite pow2_Z by lia. rewrite <- Zlt_Qlt. exact Ha2.
    - apply Qmult_le_l; [apply pow2_pos|].
      rewrite pow2_Z by lia. rewrite <- Zle_Qle. exact Hb1. }
  assert (Hlo : pow2 (la - lb - 1) < a # b).
  { rewrite Heq. apply Qlt_shift_div_l; [exact Hbpos|].
    apply Qlt_le_trans with (pow2 (la - lb - 1) * pow2 (Z.succ lb)).
    - apply Qmult_lt_l; [apply pow2_pos|].
      rewrite pow2_Z by lia. rewrite <- Zlt_Qlt. exact Hb2.
    - rewrite <- pow2_add. replace (la - lb - 1 + Z.succ lb)%Z with la by lia.
      rewrite pow2_Z by lia. rewrite <- Zle_Qle. exact Ha1. }
  unfold flog2. simpl Qnum. simpl Qden. fold la lb.
  destruct (Qle_bool (pow2 (la - lb)) (a # b)) eqn:E.
  - apply Qle_bool_iff in E. split; [exact E|].
    exact Hup.
  - split.
    + apply Qlt_le_weak. exact Hlo.
    + replace (la - lb - 1 + 1)%Z with (la - lb)%Z by lia.
      apply Qnot_le_lt. intros H. apply Qle_bool_iff in H. congruence.
Qed.

Lemma flog2_unique (x : Q) (k : Z) :
  pow2 k <= x -> x < pow2 (k + 1) -> flog2 x = k.
Proof.
  intros H1 H2.
  assert (Hx : 0 < x) by (eapply Qlt_le_trans; [apply pow2_pos | exact H1]).
  destruct (flog2_spec x Hx) as [H3 H4].
  destruct (Z.lt_trichotomy (flog2 x) k) as [Hlt|[Heq|Hgt]]; [|exact Heq|].
  - exfalso. assert (H5 : pow2 (flog2 x + 1) <= pow2 k) by (apply pow2_le; lia).
    apply (Qlt_not_le x x); [|apply Qle_refl].
    eapply Qlt_le_trans; [exact H4|]. eapply Qle_trans; [exact H5 | exact H1].
  - exfalso. assert (H5 : pow2 (k + 1) <= pow2 (flog2 x)) by (apply pow2_le; lia).
    apply (Qlt_not_le x x); [|apply Qle_refl].
    eapply Qlt_le_trans; [exact H2|]. eapply Qle_trans; [exact H5 | exact H3].
Qed.

Lemma flog2_compat (x y : Q) : 0 < x -> x == y -> flog2 x = flog2 y.
Proof.
  intros Hx Hxy. destruct (flog2_spec x Hx) as [H1 H2].
  symmetry. apply flog2_unique; rewrite <- Hxy; assumption.
Qed.

Lemma flog2_mono (x y : Q) : 0 < x -> x <= y -> (flog2 x <= flog2 y)%Z.
Proof.
  intros Hx Hxy.
  assert (Hy : 0 < y) by (eapply Qlt_le_trans; eauto).
  destruct (flog2_spec x Hx) as [H1 H2]. destruct (flog2_spec y Hy) as [H3 H4].
  destruct (Z.le_gt_cases (flog2 x) (flog2 y)) as [|Hlt]; [assumption|].
  exfalso. assert (H5 : pow2 (flog2 y + 1) <= pow2 (flog2 x)) by (apply pow2_le; lia).
  apply (Qlt_not_le y y); [|apply Qle_refl].
  eapply Qlt_le_trans; [exact H4|]. eapply Qle_trans; [exact H5|].
  eapply Qle_trans; [exact H1 | exact Hxy].
Qed.

(** Round-half-even *)

Lemma rhe_compat (x y : Q) : x == y -> round_half_even x = round_half_even y.
Proof.
  intros H. unfold round_half_even.
  assert (Hf : Qfloor x = Qfloor y).
  { apply Z.le_antisymm; apply Qfloor_resp_le; rewrite H; apply Qle_refl. }
  rewrite Hf. assert (Hd : x - inject_Z (Qfloor y) == y - inject_Z (Qfloor y))
    by (rewrite H; reflexivity).
  rewrite Hd. reflexivity.
Qed.

Lemma rhe_Z (z : Z) : round_half_even (inject_Z z) = z.
Proof.
  unfold round_half_even. rewrite Qfloor_Z.
  destruct (Qcompare_spec (inject_Z z - inject_Z z) (1 # 2)) as [H|H|H];
    [exfalso; lra | reflexivity | exfalso; lra].
Qed.

Lemma rhe_cases (y : Q) :
  round_half_even y = Qfloor y \/ round_half_even y = (Qfloor y + 1)%Z.
Proof.
  unfold round_half_even.
  destruct (_ ?= _); [destruct (Z.even _)|..]; auto.
Qed.

Lemma rhe_bounds (y : Q) :
  y - (1 # 2) <= inject_Z (round_half_even y) <= y + (1 # 2).
Proof.
  pose proof (Qfloor_le y) as F1. pose proof (Qlt_floor y) as F2.
  rewrite inject_Z_plus in F2. unfold round_half_even.
  destruct (Qcompare_spec (y - inject_Z (Qfloor y)) (1 # 2)) as [H|H|H].
  - destruct (Z.even _); [|rewrite inject_Z_plus];
      change (inject_Z 1) with 1 in *; set (n := inject_Z (Qfloor y)) in *;
      split; lra.
  - change (inject_Z 1) with 1 in *; set (n := inject_Z (Qfloor y)) in *; split; lra.
  - rewrite inject_Z_plus. change (inject_Z 1) with 1 in *;
    set (n := inject_Z (Qfloor y)) in *; split; lra.
Qed.

Lemma rhe_mono (x y : Q) : x <= y -> (round_half_even x <= round_half_even y)%Z.
Proof.
  intros Hxy.
  pose proof (Qfloor_resp_le x y Hxy) as Hf.
  destruct (Z.eq_dec (Qfloor x) (Qfloor y)) as [Heq|Hne].
  - unfold round_half_even. rewrite <- Heq. set (n := Qfloor x).
    destruct (Qcompare_spec (x - inject_Z n) (1 # 2)) as [H1|H1|H1];
    destruct (Qcompare_spec (y - inject_Z n) (1 # 2)) as [H2|H2|H2];
    try (destruct (Z.even n)); try lia; exfalso; lra.
  - destruct (rhe_cases x) as [->| ->]; destruct (rhe_cases y) as [->| ->]; lia.
Qed.

(** Binary64 rounding *)

Lemma fl_zero (x : Q) : x == 0 -> fl x == 0.
Proof.
  intros H. unfold fl. set (e := exp_of x).
  rewrite (rhe_compat _ (inject_Z 0)), rhe_Z; [apply Qmult_0_l|].
  unfold Qdiv. rewrite H. ring.
Qed.

Lemma exp_of_pos (x : Q) : 0 < x -> exp_of x = Z.max (flog2 x - 52) (-1074).
Proof.
  intros Hx. unfold exp_of.
  rewrite (flog2_compat (Qabs x) x); [reflexivity | |].
  - rewrite Qabs_pos; [exact Hx | apply Qlt_le_weak; exact Hx].
  - apply Qabs_pos, Qlt_le_weak. exact Hx.
Qed.

Lemma Qdiv_pow2_le (x y : Q) (e : Z) : x <= y -> x / pow2 e <= y / pow2 e.
Proof.
  intros H. unfold Qdiv. apply Qmult_le_compat_r; [exact H|].
  apply Qinv_le_0_compat, Qlt_le_weak, pow2_pos.
Qed.

Lemma Qdiv_pow2_mult (x : Q) (e : Z) : x / pow2 e * pow2 e == x.
Proof.
  field. apply Qnot_eq_sym, Qlt_not_eq, pow2_pos.
Qed.

Lemma fl_nonneg (x : Q) : 0 <= x -> 0 <= fl x.
Proof.
  intros Hx. unfold fl. apply Qmult_le_0_compat; [|apply Qlt_le_weak, pow2_pos].
  change 0 with (inject_Z 0). rewrite <- Zle_Qle.
  rewrite <- (rhe_Z 0). apply rhe_mono.
  apply Qle_shift_div_l; [apply pow2_pos|]. rewrite Qmult_0_l. exact Hx.
Qed.

Lemma fl_mono (x y : Q) : 0 <= x -> x <= y -> fl x <= fl y.
Proof.
  intros Hx Hxy.
  destruct (Qle_lt_or_eq 0 x Hx) as [Hxp|Hx0];
    [|rewrite (fl_zero x) by (symmetry; exact Hx0);
      apply fl_nonneg; eapply Qle_trans; eauto].
  assert (Hyp : 0 < y) by (eapply Qlt_le_trans; eauto).
  unfold fl. rewrite (exp_of_pos x Hxp), (exp_of_pos y Hyp).
  pose proof (flog2_mono x y Hxp Hxy) as Hm.
  set (ex := Z.max (flog2 x - 52) (-1074)).
  set (ey := Z.max (flog2 y - 52) (-1074)).
  destruct (Z.eq_dec ex ey) as [Heq|Hne].
  - rewrite <- Heq. apply Qmult_le_compat_r; [|apply Qlt_le_weak, pow2_pos].
    rewrite <- Zle_Qle. apply rhe_mono, Qdiv_pow2_le. exact Hxy.
  - assert (Hey : ey = (flog2 y - 52)%Z) by lia.
    assert (Hlt : (ex + 1 <= ey)%Z) by lia.
    destruct (flog2_spec x Hxp) as [_ Hx2]. destruct (flog2_spec y Hyp) as [Hy1 _].
    apply Qle_trans with (pow2 (flog2 y)).
    + apply Qle_trans with (inject_Z (2 ^ 53) * pow2 ex).
      * apply Qmult_le_compat_r; [|apply Qlt_le_weak, pow2_pos].
        rewrite <- Zle_Qle. rewrite <- (rhe_Z (2 ^ 53)). apply rhe_mono.
        apply Qle_shift_div_r; [apply pow2_pos|].
        rewrite <- pow2_Z by lia. rewrite <- pow2_add.
        apply Qlt_le_weak. eapply Qlt_le_trans; [exact Hx2|]. apply pow2_le. lia.
      * rewrite <- pow2_Z by lia. rewrite <- pow2_add. apply pow2_le. lia.
    + apply Qle_trans with (inject_Z (2 ^ 52) * pow2 ey).
      * rewrite <- pow2_Z by lia. rewrite <- pow2_add. apply pow2_le. lia.
      * apply Qmult_le_compat_r; [|apply Qlt_le_weak, pow2_pos].
        rewrite <- Zle_Qle. rewrite <- (rhe_Z (2 ^ 52)). apply rhe_mono.
        apply Qle_shift_div_l; [apply pow2_pos|].
        rewrite <- pow2_Z by lia. rewrite <- pow2_add.
        eapply Qle_trans; [|exact Hy1]. apply pow2_le. lia.
Qed.

Lemma fl_Z (z : Z) : (0 <= z < 2 ^ 53)%Z -> fl (inject_Z z) == inject_Z z.
Proof.
  intros Hz. destruct (Z.eq_dec z 0) as [->|Hnz]; [apply fl_zero; reflexivity|].
  assert (Hp : 0 < inject_Z z) by (change 0 with (inject_Z 0); rewrite <- Zlt_Qlt; lia).
  destruct (flog2_spec _ Hp) as [H1 _].
  assert (Hf : (flog2 (inject_Z z) <= 52)%Z).
  { assert (H2 : pow2 (flog2 (inject_Z z)) < pow2 53).
    { eapply Qle_lt_trans; [exact H1|]. rewrite pow2_Z by lia.
      rewrite <- Zlt_Qlt. lia. }
    destruct (Z.le_gt_cases (flog2 (inject_Z z)) 52) as [|Hg]; [assumption|].
    exfalso. apply (Qlt_not_le _ _ H2). apply pow2_le. lia. }
  unfold fl. rewrite (exp_of_pos _ Hp).
  set (e := Z.max (flog2 (inject_Z z) - 52) (-1074)).
  assert (He : (e <= 0)%Z) by lia.
  assert (Hd : inject_Z z / pow2 e == inject_Z (z * 2 ^ (- e))).
  { rewrite inject_Z_mult, <- pow2_Z by lia.
    apply Qmult_inj_r with (pow2 e); [apply Qnot_eq_sym, Qlt_not_eq, pow2_pos|].
    rewrite Qdiv_pow2_mult, <- Qmult_assoc, <- pow2_add.
    replace (- e + e)%Z with 0%Z by lia. unfold pow2. simpl. ring. }
  rewrite (rhe_compat _ _ Hd), rhe_Z, <- Hd. apply Qdiv_pow2_mult.
Qed.

Lemma pow2_u53 : pow2 (-53) == u53.
Proof. reflexivity. Qed.

Lemma fl_upper (x : Q) : pow2 (-1022) <= x -> fl x <= x * (1 + u53).
Proof.
  intros Hx.
  assert (Hxp : 0 < x) by (eapply Qlt_le_trans; [apply pow2_pos | exact Hx]).
  destruct (flog2_spec x Hxp) as [H1 H2].
  assert (Hf : (-1022 <= flog2 x)%Z).
  { assert (H3 : pow2 (-1022) < pow2 (flog2 x + 1)) by (eapply Qle_lt_trans; eauto).
    destruct (Z.le_gt_cases (-1022) (flog2 x)) as [|Hg]; [assumption|].
    exfalso. apply (Qlt_not_le _ _ H3). apply pow2_le. lia. }
  unfold fl. rewrite (exp_of_pos x Hxp).
  replace (Z.max (flog2 x - 52) (-1074)) with (flog2 x - 52)%Z by lia.
  set (e := (flog2 x - 52)%Z).
  destruct (rhe_bounds (x / pow2 e)) as [_ Hr].
  apply Qle_trans with ((x / pow2 e + (1 # 2)) * pow2 e).
  - apply Qmult_le_compat_r; [exact Hr | apply Qlt_le_weak, pow2_pos].
  - rewrite Qmult_plus_distr_l, Qdiv_pow2_mult.
    assert (He : pow2 e * (1 # 2) == pow2 (flog2 x) * u53).
    { rewrite <- pow2_u53, <- pow2_add. unfold e.
      replace (flog2 x + -53)%Z with (flog2 x - 52 + -1)%Z by lia.
      rewrite pow2_add. reflexivity. }
    rewrite Qmult_comm in He. rewrite He.
    assert (0 < u53) by reflexivity.
    assert (pow2 (flog2 x) * u53 <= x * u53) by (apply Qmult_le_compat_r; lra).
    lra.
Qed.

End FlLemmas.

Section OffsetLemmas.
Import DateSequencer.
Local Open Scope Q_scope.

Lemma trunc_nonneg (x : Q) : 0 <= x -> trunc x = Qfloor x.
Proof. intros H. unfold trunc. apply Qle_bool_iff in H. rewrite H. reflexivity. Qed.

Lemma trunc_compat (x y : Q) : x == y -> trunc x = trunc y.
Proof.
  intros H. unfold trunc.
  assert (Hf : forall a b, a == b -> Qfloor a = Qfloor b).
  { intros a b Hab. apply Z.le_antisymm; apply Qfloor_resp_le; rewrite Hab; apply Qle_refl. }
  destruct (Qle_bool 0 x) eqn:Ex, (Qle_bool 0 y) eqn:Ey.
  - apply Hf. exact H.
  - apply Qle_bool_iff in Ex. rewrite H in Ex. apply Qle_bool_iff in Ex. congruence.
  - apply Qle_bool_iff in Ey. rewrite <- H in Ey. apply Qle_bool_iff in Ey. congruence.
  - f_equal. apply Hf. rewrite H. reflexivity.
Qed.

Lemma trunc_mono (x y : Q) : 0 <= x -> x <= y -> (trunc x <= trunc y)%Z.
Proof.
  intros Hx H. assert (Hy : 0 <= y) by (eapply Qle_trans; eauto).
  rewrite (trunc_nonneg x Hx), (trunc_nonneg y Hy). apply Qfloor_resp_le. exact H.
Qed.

Lemma trunc_range (x : Q) (T : Z) :
  0 <= x -> x < inject_Z T + 1 -> (0 <= trunc x <= T)%Z.
Proof.
  intros H0 H1. rewrite trunc_nonneg by exact H0. split.
  - change 0%Z with (Qfloor 0). apply Qfloor_resp_le. exact H0.
  - pose proof (Qfloor_le x) as F.
    assert (H2 : inject_Z (Qfloor x) < inject_Z (T + 1)).
    { rewrite inject_Z_plus. eapply Qle_lt_trans; [exact F | exact H1]. }
    rewrite <- Zlt_Qlt in H2. lia.
Qed.

Lemma Q_of_Z_nonneg (z : Z) : (0 <= z)%Z -> 0 <= inject_Z z.
Proof. intros H. change 0 with (inject_Z 0). rewrite <- Zle_Qle. exact H. Qed.

Lemma offset_mono (i j m T : Z) :
  (0 <= i <= j)%Z -> (0 <= T)%Z -> (0 < m)%Z ->
  (trunc (fl (fl (inject_Z i) * fl (inject_Z T / inject_Z m))) <=
   trunc (fl (fl (inject_Z j) * fl (inject_Z T / inject_Z m))))%Z.
Proof.
  intros Hij HT Hm.
  assert (Hd : 0 <= fl (inject_Z T / inject_Z m)).
  { apply fl_nonneg. apply Qle_shift_div_l.
    - change 0 with (inject_Z 0). rewrite <- Zlt_Qlt. exact Hm.
    - rewrite Qmult_0_l. apply Q_of_Z_nonneg. exact HT. }
  assert (Hi : 0 <= fl (inject_Z i)) by (apply fl_nonneg, Q_of_Z_nonneg; lia).
  apply trunc_mono.
  - apply fl_nonneg, Qmult_le_0_compat; assumption.
  - apply fl_mono; [apply Qmult_le_0_compat; assumption|].
    apply Qmult_le_compat_r; [|exact Hd].
    apply fl_mono; [apply Q_of_Z_nonneg; lia|]. rewrite <- Zle_Qle. lia.
Qed.

Lemma pow2_1022 : pow2 (-1022) <= 1.
Proof. unfold Qle. vm_compute. discriminate. Qed.

Lemma pow2_1022_63 : pow2 (-1022) * inject_Z (2 ^ 63) <= 1.
Proof. unfold Qle. vm_compute. discriminate. Qed.

Lemma offset_bounds (i m T : Z) :
  (0 <= i <= m)%Z -> (1 <= m <= 2 ^ 63)%Z -> (0 <= T < 2 ^ 50)%Z ->
  (0 <= trunc (fl (fl (inject_Z i) * fl (inject_Z T / inject_Z m))) <= T)%Z.
Proof.
  intros Him Hm HT.
  assert (Hmq : 1 <= inject_Z m) by (change 1 with (inject_Z 1); rewrite <- Zle_Qle; lia).
  assert (Hmq2 : inject_Z m <= inject_Z (2 ^ 63)) by (rewrite <- Zle_Qle; lia).
  assert (HTq : 0 <= inject_Z T) by (apply Q_of_Z_nonneg; lia).
  assert (HTq2 : inject_Z T < inject_Z (2 ^ 50)) by (rewrite <- Zlt_Qlt; lia).
  change (inject_Z (2 ^ 50)) with (1125899906842624 # 1) in HTq2.
  assert (Hmpos : 0 < inject_Z m) by lra.
  set (d := fl (inject_Z T / inject_Z m)).
  assert (Hd0 : 0 <= d).
  { apply fl_nonneg. apply Qle_shift_div_l; [exact Hmpos|]. lra. }
  assert (Hi0 : 0 <= fl (inject_Z i)) by (apply fl_nonneg, Q_of_Z_nonneg; lia).
  assert (HP0 : 0 <= fl (inject_Z i) * d) by (apply Qmult_le_0_compat; assumption).
  apply trunc_range; [apply fl_nonneg; exact HP0|].
  destruct (Z.eq_dec T 0) as [HT0|HT0].
  - assert (Hd : d == 0).
    { unfold d. apply fl_zero. subst T. unfold Qdiv. ring. }
    rewrite (fl_zero (fl (inject_Z i) * d)) by (rewrite Hd; ring).
    subst T. simpl. lra.
  - assert (HT1 : 1 <= inject_Z T) by (change 1 with (inject_Z 1); rewrite <- Zle_Qle; lia).
    (* A: fl i <= m (1 + u) *)
    assert (HA : fl (inject_Z i) <= inject_Z m * (1 + u53)).
    { eapply Qle_trans; [apply fl_mono; [apply Q_of_Z_nonneg; lia | rewrite <- Zle_Qle; exact (proj2 Him)]|].
      apply fl_upper. pose proof pow2_1022. lra. }
    (* B: d <= T / m (1 + u) *)
    assert (HB : d <= inject_Z T / inject_Z m * (1 + u53)).
    { apply fl_upper. apply Qle_shift_div_l; [exact Hmpos|].
      apply Qle_trans with (pow2 (-1022) * inject_Z (2 ^ 63)).
      - rewrite !(Qmult_comm (pow2 (-1022))).
        apply Qmult_le_compat_r; [exact Hmq2 | apply Qlt_le_weak, pow2_pos].
      - pose proof pow2_1022_63. lra. }
    assert (HC : fl (inject_Z i) * d <= inject_Z T * (1 + u53) * (1 + u53)).
    { apply Qle_trans with (inject_Z m * (1 + u53) * (inject_Z T / inject_Z m * (1 + u53))).
      - apply Qmult_le_compat_nonneg; split; assumption.
      - apply Qle_lteq. right. field. lra. }
    assert (HD : fl (fl (inject_Z i) * d) <= inject_Z T * (1 + u53) * (1 + u53) * (1 + u53)).
    { eapply Qle_trans; [apply fl_mono; [exact HP0 | exact HC]|].
      apply fl_upper. pose proof pow2_1022. unfold u53. lra. }
    eapply Qle_lt_trans; [exact HD|]. unfold u53. lra.
Qed.

End OffsetLemmas.

Section ToFloatLemmas.
Local Open Scope Q_scope.











End ToFloatLemmas.

(** ** Lemmas on the balance loop *)

Lemma firstn_S_nth_error {A} (l : list A) (n : nat) (x : A) :
  nth_error l n = Some x -> firstn (S n) l = firstn n l ++ [x].
Proof.
  revert n. induction l as [|a l IH]; intros [|n] H; simpl in *; try discriminate.
  - injection H as ->. reflexivity.
  - rewrite (IH n H). reflexivity.
Qed.

Section RecalcLoop.
Import BalanceCalculator.

Lemma recalc_loop_acc (txns : list Transaction) :
  forall r tc td,
  snd (recalc_loop r tc td txns) =
  (running_after r txns, fold_left PrimFloat.add (map credit txns) tc,
   fold_left PrimFloat.add (map debit txns) td).
Proof.
  induction txns as [|t txns IH]; intros r tc td; simpl; [reflexivity|].
  specialize (IH (PrimFloat.sub (PrimFloat.add r (credit t)) (debit t))
                 (PrimFloat.add tc (credit t)) (PrimFloat.add td (debit t))).
  destruct (recalc_loop _ _ _ txns) as [rest' acc]. simpl in *.
  exact IH.
Qed.

Lemma recalc_loop_out (txns : list Transaction) :
  forall r tc td,
  let out := fst (recalc_loop r tc td txns) in
  List.length out = List.length txns /\
  forall i t, nth_error out i = Some t ->
    exists t0, nth_error txns i = Some t0 /\
      t = set_balance t0 (round2f (running_after r (firstn (S i) txns))).
Proof.
  induction txns as [|t txns IH]; intros r tc td; simpl.
  - split; [reflexivity|]. intros [|i] t H; discriminate.
  - specialize (IH (PrimFloat.sub (PrimFloat.add r (credit t)) (debit t))
                   (PrimFloat.add tc (credit t)) (PrimFloat.add td (debit t))).
    destruct (recalc_loop _ _ _ txns) as [rest' acc]. simpl in *.
    destruct IH as [Hlen Hnth]. split; [now rewrite Hlen|].
    intros [|i] t1 H; simpl in H.
    + injection H as <-. exists t. split; reflexivity.
    + destruct (Hnth i t1 H) as (t0 & Ht0 & ->).
      exists t0. split; [exact Ht0|]. reflexivity.
Qed.

Lemma recalc_loop_strip (txns1 txns2 : list Transaction) :
  map strip txns1 = map strip txns2 ->
  forall r tc td, recalc_loop r tc td txns1 = recalc_loop r tc td txns2.
Proof.
  revert txns2. induction txns1 as [|t1 l1 IH]; intros [|t2 l2] H r tc td;
    try discriminate.
  - reflexivity.
  - pose proof (f_equal (hd t1) H) as Ht. pose proof (f_equal (@tl _) H) as Hl.
    cbn [hd tl map] in Ht, Hl. simpl.
    assert (Hc : credit t1 = credit t2) by (exact (f_equal credit Ht)).
    assert (Hd : debit t1 = debit t2) by (exact (f_equal debit Ht)).
    rewrite (IH l2 Hl), Hc, Hd.
    assert (Hs : forall v, set_balance t1 v = set_balance t2 v).
    { intros v. exact (f_equal (fun t => set_balance t v) Ht). }
    rewrite Hs. reflexivity.
Qed.

Lemma recalc_loop_strip_out (txns : list Transaction) :
  forall r tc td, map strip (fst (recalc_loop r tc td txns)) = map strip txns.
Proof.
  induction txns as [|t txns IH]; intros r tc td; simpl; [reflexivity|].
  specialize (IH (PrimFloat.sub (PrimFloat.add r (credit t)) (debit t))
                 (PrimFloat.add tc (credit t)) (PrimFloat.add td (debit t))).
  destruct (recalc_loop _ _ _ txns) as [rest' acc]. simpl in *.
  rewrite IH. reflexivity.
Qed.

Lemma recalc_loop_amounts (txns1 txns2 : list Transaction) :
  Forall2 (fun t1 t2 => credit t1 = credit t2 /\ debit t1 = debit t2) txns1 txns2 ->
  forall r tc td,
  map balance (fst (recalc_loop r tc td txns1)) =
    map balance (fst (recalc_loop r tc td txns2)) /\
  snd (recalc_loop r tc td txns1) = snd (recalc_loop r tc td txns2).
Proof.
  induction 1 as [|t1 t2 l1 l2 [Hc Hd] _ IH]; intros r tc td; simpl.
  - split; reflexivity.
  - rewrite Hc, Hd.
    specialize (IH (PrimFloat.sub (PrimFloat.add r (credit t2)) (debit t2))
                   (PrimFloat.add tc (credit t2)) (PrimFloat.add td (debit t2))).
    destruct (recalc_loop _ _ _ l1) as [o1 a1].
    destruct (recalc_loop _ _ _ l2) as [o2 a2].
    destruct IH as [Hb Ha]. simpl in *. rewrite Hb, Ha. split; reflexivity.
Qed.

Lemma recalc_loop_app (l1 l2 : list Transaction) :
  forall r tc td,
  recalc_loop r tc td (l1 ++ l2) =
  let '(o1, (r1, tc1, td1)) := recalc_loop r tc td l1 in
  let '(o2, acc) := recalc_loop r1 tc1 td1 l2 in
  (o1 ++ o2, acc).
Proof.
  induction l1 as [|t l1 IH]; intros r tc td; simpl.
  - destruct (recalc_loop r tc td l2). reflexivity.
  - rewrite IH.
    destruct (recalc_loop (PrimFloat.sub (PrimFloat.add r (credit t)) (debit t))
                (PrimFloat.add tc (credit t)) (PrimFloat.add td (debit t)) l1)
      as [o1 [[r1 tc1] td1]].
    destruct (recalc_loop r1 tc1 td1 l2). reflexivity.
Qed.

Lemma recalc_loop_length (l : list Transaction) :
  forall r tc td, List.length (fst (recalc_loop r tc td l)) = List.length l.
Proof. intros r tc td. apply (recalc_loop_out l r tc td). Qed.

End RecalcLoop.

(** ** Claims on the balance calculator *)

(** C1 (as stated, refuted).  The claim says that after [recalculate],
    [closing_balance == opening_balance + total_credits - total_debits] to 2
    decimal places and each balance equals the previous one plus credit minus
    debit.  With an opening balance of 2^50 and two credits of 0.13, the
    float running balance goes 2^50 + 0.25, 2^50 + 0.5 (at that magnitude
    floats are multiples of 0.25), so [closing_balance] is 2^50 + 0.50 while
    [total_credits] is 0.26: the two sides differ by more than 0.2, also
    when the right-hand side is computed in floats and rounded.  With an
    unrounded credit 0.006 and debit 0.004 (values stored by attribute
    assignment), [closing_balance] is 0.0, but the totals give 0.01, and the
    first balance 0.0 is not [0.0 + 0.006 - 0.004]. *)
Lemma recalculate_closing_counterexample :
  let s1 := BalanceCalculator.recalculate large_statement in
  let s2 := BalanceCalculator.recalculate unrounded_statement in
  closing_balance s1 = 1125899906842624.5%float /\
  total_credits s1 = 0.26%float /\ total_debits s1 = 0.0%float /\
  (1 # 5 <= float_to_Q (closing_balance s1) -
     (float_to_Q (opening_balance s1) + float_to_Q (total_credits s1)
      - float_to_Q (total_debits s1)))%Q /\
  PrimFloat.eqb (closing_balance s1)
    (round2f (PrimFloat.sub (PrimFloat.add (opening_balance s1) (total_credits s1))
       (total_debits s1))) = false /\
  closing_balance s2 = 0.0%float /\
  PrimFloat.eqb (closing_balance s2)
    (round2f (PrimFloat.sub (PrimFloat.add (opening_balance s2) (total_credits s2))
       (total_debits s2))) = false /\
  (exists t, nth_error (transactions s2) 0 = Some t /\
     PrimFloat.eqb (balance t)
       (PrimFloat.sub (PrimFloat.add (prev_balance s2 0) (credit t)) (debit t)) = false).
Proof.
  cbv zeta.
  split; [vm_compute; reflexivity|]. split; [vm_compute; reflexivity|].
  split; [vm_compute; reflexivity|].
  split; [unfold Qle; vm_compute; discriminate|].
  split; [vm_compute; reflexivity|]. split; [vm_compute; reflexivity|].
  split; [vm_compute; reflexivity|].
  eexists. split; [vm_compute; reflexivity|]. vm_compute. reflexivity.
Qed.

(** C1 (amended).  After [recalculate], with the float arithmetic of the
    loop: [total_credits = round(0.0 + credit_0 + credit_1 + ..., 2)],
    [total_debits] likewise, [closing_balance = round(r_n, 2)] and
    transaction [i] gets [balance = round(r_(i+1), 2)], where [r_0] is the
    opening balance and [r_(j+1) = r_j + credit_j - debit_j] (the float
    running balance); the opening balance and the length of the list are
    kept. *)
Theorem recalculate_spec (s : BankStatement) :
  let s' := BalanceCalculator.recalculate s in
  let b := opening_balance s in
  let txns := transactions s in
  total_credits s' = round2f (fsum (map credit txns)) /\
  total_debits s' = round2f (fsum (map debit txns)) /\
  closing_balance s' = round2f (running_after b txns) /\
  opening_balance s' = b /\
  List.length (transactions s') = List.length txns /\
  (forall i t, nth_error (transactions s') i = Some t ->
     balance t = round2f (running_after b (firstn (S i) txns))).
Proof.
  destruct s as [h txns pr ec b cb tc td]. cbv zeta.
  unfold BalanceCalculator.recalculate. cbn [transactions opening_balance].
  pose proof (recalc_loop_acc txns b 0.0%float 0.0%float) as Hacc.
  pose proof (recalc_loop_out txns b 0.0%float 0.0%float) as Hout.
  destruct (BalanceCalculator.recalc_loop b 0.0%float 0.0%float txns)
    as [out [[r tc'] td']].
  cbn [fst snd] in Hout, Hacc. injection Hacc as -> -> ->.
  destruct Hout as [Hlen Hnth].
  cbn [total_credits total_debits closing_balance opening_balance transactions].
  split; [reflexivity|]. split; [reflexivity|]. split; [reflexivity|].
  split; [reflexivity|]. split; [exact Hlen|].
  intros i t H. destruct (Hnth i t H) as (t0 & _ & ->). reflexivity.
Qed.

(** C2.  [recalculate] is idempotent, and the balances, totals and closing
    balance it produces depend only on the opening balance and the ordered
    credit/debit values: any two statements agreeing on those (whatever their
    previous balances, totals and closing balance) get the same results. *)
Theorem recalculate_idempotent (s s2 : BankStatement) :
  BalanceCalculator.recalculate (BalanceCalculator.recalculate s) =
    BalanceCalculator.recalculate s /\
  (opening_balance s2 = opening_balance s ->
   Forall2 (fun t2 t => credit t2 = credit t /\ debit t2 = debit t)
     (transactions s2) (transactions s) ->
   map balance (transactions (BalanceCalculator.recalculate s2)) =
     map balance (transactions (BalanceCalculator.recalculate s)) /\
   total_credits (BalanceCalculator.recalculate s2) =
     total_credits (BalanceCalculator.recalculate s) /\
   total_debits (BalanceCalculator.recalculate s2) =
     total_debits (BalanceCalculator.recalculate s) /\
   closing_balance (BalanceCalculator.recalculate s2) =
     closing_balance (BalanceCalculator.recalculate s)).
Proof.
  split.
  - destruct s as [h txns pr ec b cb tc td].
    unfold BalanceCalculator.recalculate. cbn [transactions opening_balance].
    pose proof (recalc_loop_strip_out txns b 0.0%float 0.0%float) as Hs.
    destruct (BalanceCalculator.recalc_loop b 0.0%float 0.0%float txns)
      as [out [[r tc'] td']] eqn:E.
    cbn [fst] in Hs.
    cbn [transactions opening_balance header original_page_ranges extra_columns].
    rewrite (recalc_loop_strip out txns Hs b 0.0%float 0.0%float), E. reflexivity.
  - intros Hb Hall.
    destruct s as [h txns pr ec b cb tc td], s2 as [h2 txns2 pr2 ec2 b2 cb2 tc2 td2].
    cbn [transactions opening_balance] in Hb, Hall. subst b2.
    unfold BalanceCalculator.recalculate. cbn [transactions opening_balance].
    pose proof (recalc_loop_amounts txns2 txns Hall b 0.0%float 0.0%float) as H.
    destruct (BalanceCalculator.recalc_loop b 0.0%float 0.0%float txns2)
      as [o2 [[r2 tc2'] td2']].
    destruct (BalanceCalculator.recalc_loop b 0.0%float 0.0%float txns)
      as [o1 [[r1 tc1'] td1']].
    destruct H as [Hbal Ha]. cbn in Hbal, Ha. injection Ha as -> -> ->. cbn.
    repeat split. exact Hbal.
Qed.

Lemma recalculate_idempotent_witness :
  map balance (transactions (BalanceCalculator.recalculate
    (mkBankStatement example_header
       (map (fun t => set_balance t 7.0%float) (transactions scenario_statement))
       [] [] 1000.0%float 5.0%float 6.0%float 7.0%float))) =
  map balance (transactions (BalanceCalculator.recalculate scenario_statement)).
Proof.
  destruct (recalculate_idempotent scenario_statement
    (mkBankStatement example_header
       (map (fun t => set_balance t 7.0%float) (transactions scenario_statement))
       [] [] 1000.0%float 5.0%float 6.0%float 7.0%float)) as [_ H].
  apply H.
  - reflexivity.
  - simpl. repeat constructor.
Defined.

(** ** Lemmas on the date sequencer *)

Section DateLemmas.
Import DateSequencer.

Lemma nth_error_mapi_from {A B} (f : nat -> A -> B) (l : list A) :
  forall k i, nth_error (mapi_from f k l) i = option_map (f (k + i)%nat) (nth_error l i).
Proof.
  induction l as [|x l IH]; intros k [|i]; simpl; try reflexivity.
  - rewrite Nat.add_0_r. reflexivity.
  - rewrite IH. rewrite Nat.add_succ_r. reflexivity.
Qed.

Lemma set_date_date (t : Transaction) (d : Z) : date (set_date t d) = d.
Proof. reflexivity. Qed.

Lemma set_date_same (t : Transaction) : set_date t (date t) = t.
Proof. destruct t; reflexivity. Qed.

Lemma uniform_nth (l : list Transaction) (s e : Z) (i : nat) (o : Transaction) :
  nth_error (_uniform_distribution l s e) i = Some o ->
  exists t, nth_error l i = Some t /\ o = set_date t (uniform_day (List.length l) s e i).
Proof.
  unfold _uniform_distribution, uniform_day.
  destruct (Nat.eqb (List.length l) 1) eqn:E.
  - apply Nat.eqb_eq in E. destruct l as [|t [|t' l]]; try discriminate.
    destruct i as [|[|i]]; simpl; intros H; try discriminate.
    injection H as <-. exists t. split; reflexivity.
  - intros H. rewrite nth_error_mapi_from in H.
    destruct (nth_error l i) as [t|] eqn:Ht; [|discriminate].
    simpl in H. injection H as <-. exists t. split; reflexivity.
Qed.

Lemma uniform_day_mono (n : nat) (s e : Z) (i j : nat) :
  s <= e -> (i <= j)%nat -> (j < n)%nat ->
  uniform_day n s e i <= uniform_day n s e j.
Proof.
  intros Hse Hij Hjn. unfold uniform_day.
  destruct (Nat.eqb n 1) eqn:E; [lia|].
  apply Nat.eqb_neq in E.
  apply Z.add_le_mono_l, offset_mono; lia.
Qed.

Lemma uniform_dates_monotone (l : list Transaction) (s e : Z) (i j : nat)
    (oi oj : Transaction) :
  s <= e -> (i <= j)%nat ->
  nth_error (_uniform_distribution l s e) i = Some oi ->
  nth_error (_uniform_distribution l s e) j = Some oj ->
  date oi <= date oj.
Proof.
  intros Hse Hij Hi Hj.
  destruct (uniform_nth l s e i oi Hi) as (ti & _ & ->).
  destruct (uniform_nth l s e j oj Hj) as (tj & Htj & ->).
  rewrite !set_date_date. apply uniform_day_mono; try assumption.
  apply nth_error_Some. rewrite Htj. discriminate.
Qed.

Lemma fold_min_bound (ds : list Z) :
  forall a, fold_left Z.min ds a <= a /\
            forall x, In x ds -> fold_left Z.min ds a <= x.
Proof.
  induction ds as [|y ds IH]; intros a; simpl.
  - split; [lia | intros x []].
  - destruct (IH (Z.min a y)) as [H1 H2]. split; [lia|].
    intros x [<-|Hx]; [lia | auto].
Qed.

Lemma fold_max_bound (ds : list Z) :
  forall a, a <= fold_left Z.max ds a /\
            forall x, In x ds -> x <= fold_left Z.max ds a.
Proof.
  induction ds as [|y ds IH]; intros a; simpl.
  - split; [lia | intros x []].
  - destruct (IH (Z.max a y)) as [H1 H2]. split; [lia|].
    intros x [<-|Hx]; [lia | auto].
Qed.

Lemma min_max_bounds (d : Z) (ds : list Z) (x : Z) :
  In x (d :: ds) -> fold_left Z.min ds d <= x <= fold_left Z.max ds d.
Proof.
  intros Hx. destruct (fold_min_bound ds d) as [Hm1 Hm2].
  destruct (fold_max_bound ds d) as [HM1 HM2].
  destruct Hx as [<-|Hx]; [lia|]. split; auto.
Qed.

Lemma nodup_single (l : list Z) (x y : Z) :
  List.length (nodup Z.eq_dec l) = 1%nat -> In x l -> In y l -> x = y.
Proof.
  intros Hlen Hx Hy.
  apply (nodup_In Z.eq_dec) in Hx. apply (nodup_In Z.eq_dec) in Hy.
  destruct (nodup Z.eq_dec l) as [|z [|z' r]]; try discriminate.
  destruct Hx as [<-|[]]. destruct Hy as [<-|[]]. reflexivity.
Qed.

End DateLemmas.

Section DateLemmas2.
Import DateSequencer.

Lemma preserve_dates_monotone (l : list Transaction) (s e : Z)
    (out : list Transaction) (i j : nat) (ti tj oi oj : Transaction) :
  s <= e -> _preserve_spacing l s e = Some out ->
  nth_error l i = Some ti -> nth_error l j = Some tj ->
  nth_error out i = Some oi -> nth_error out j = Some oj ->
  (date ti < date tj \/ (date ti = date tj /\ (i <= j)%nat)) ->
  date oi <= date oj.
Proof.
  intros Hse Hp Hi Hj Hoi Hoj Hkey.
  assert (Hini : In (date ti) (map date l))
    by (apply in_map; eapply nth_error_In; eauto).
  assert (Hinj : In (date tj) (map date l))
    by (apply in_map; eapply nth_error_In; eauto).
  unfold _preserve_spacing in Hp. revert Hp.
  destruct (Nat.eqb (List.length (nodup Z.eq_dec (map date l))) 1) eqn:E1.
  - intros Hp. injection Hp as <-. apply Nat.eqb_eq in E1.
    pose proof (nodup_single _ _ _ E1 Hini Hinj) as Heq.
    apply (uniform_dates_monotone l s e i j); try assumption.
    destruct Hkey as [Hlt|[_ Hle]]; [lia|exact Hle].
  - destruct (map date l) as [|d ds] eqn:Em; [discriminate|].
    pose proof (min_max_bounds d ds _ Hini) as Bi.
    pose proof (min_max_bounds d ds _ Hinj) as Bj.
    destruct (Z.eqb (fold_left Z.max ds d - fold_left Z.min ds d) 0) eqn:E2.
    + intros Hp. injection Hp as <-. apply Z.eqb_eq in E2.
      apply (uniform_dates_monotone l s e i j); try assumption.
      destruct Hkey as [Hlt|[_ Hle]]; [lia|exact Hle].
    + intros Hp. injection Hp as <-.
      rewrite nth_error_map, Hi in Hoi. rewrite nth_error_map, Hj in Hoj.
      simpl in Hoi, Hoj. injection Hoi as <-. injection Hoj as <-.
      rewrite !set_date_date.
      apply Z.add_le_mono_l, offset_mono; lia.
Qed.

Lemma Forall2_mapi_from {A B} (R : A -> B -> Prop) (f : nat -> A -> B) :
  (forall i x, R x (f i x)) ->
  forall l k, Forall2 R l (mapi_from f k l).
Proof.
  intros Hf. induction l as [|x l IH]; intros k; simpl; constructor; auto.
Qed.

Lemma Forall2_map_r {A B} (R : A -> B -> Prop) (f : A -> B) :
  (forall x, R x (f x)) -> forall l, Forall2 R l (map f l).
Proof. intros Hf. induction l; simpl; constructor; auto. Qed.

Lemma Forall2_map_l {A B C} (R : B -> C -> Prop) (f : A -> B) (l : list A) (out : list C) :
  Forall2 R (map f l) out -> Forall2 (fun x y => R (f x) y) l out.
Proof.
  revert out. induction l as [|x l IH]; intros out H; simpl in H;
    inversion H; subst; constructor; auto.
Qed.

Lemma uniform_redated (l : list Transaction) (s e : Z) :
  Forall2 (fun t o => exists d, o = set_date t d) l (_uniform_distribution l s e).
Proof.
  unfold _uniform_distribution.
  destruct (Nat.eqb (List.length l) 1) eqn:E.
  - apply Nat.eqb_eq in E. destruct l as [|t [|t' l]]; try discriminate.
    constructor; [exists s; reflexivity | constructor].
  - apply Forall2_mapi_from. intros i t. eexists. reflexivity.
Qed.

Lemma preserve_redated (l : list Transaction) (s e : Z) :
  l <> [] ->
  exists out, _preserve_spacing l s e = Some out /\
    Forall2 (fun t o => exists d, o = set_date t d) l out.
Proof.
  intros Hne. unfold _preserve_spacing.
  destruct (Nat.eqb (List.length (nodup Z.eq_dec (map date l))) 1).
  - eexists. split; [reflexivity | apply uniform_redated].
  - destruct l as [|t0 rest]; [contradiction|]. simpl map.
    cbv beta iota. match goal with |- context [Z.eqb ?x 0] => destruct (Z.eqb x 0) end.
    + eexists. split; [reflexivity | apply uniform_redated].
    + eexists. split; [reflexivity|].
      constructor; [eexists; reflexivity|].
      apply Forall2_map_r. intros t. eexists. reflexivity.
Qed.

Lemma nodup_const (l : list Z) (d : Z) :
  l <> [] -> Forall (fun x => x = d) l -> nodup Z.eq_dec l = [d].
Proof.
  intros Hne Hall. induction Hall as [|x l Hx Hall IH]; [contradiction|].
  subst x. simpl. destruct l as [|y l].
  - reflexivity.
  - destruct (in_dec Z.eq_dec d (y :: l)) as [_|Hn].
    + apply IH. discriminate.
    + exfalso. apply Hn. inversion Hall; subst. left. reflexivity.
Qed.

End DateLemmas2.

(** ** Claims on the date sequencer *)

(** C3.  [sequence_dates] returns a list of the same length whose [i]-th
    transaction is the [i]-th input transaction with [original_date] set to
    the date it carried before the call and only its [date] rewritten, for
    either method flag and any window. *)
Theorem sequence_dates_keeps_order (txns : list Transaction) (s e : Z)
    (method : string) :
  exists out, DateSequencer.sequence_dates txns s e method = Some out /\
  List.length out = List.length txns /\
  Forall2 (fun t o => exists d,
             o = set_date (set_original_date t (Some (date t))) d) txns out.
Proof.
  destruct txns as [|t0 rest].
  - exists []. repeat split; constructor.
  - unfold DateSequencer.sequence_dates.
    set (stored := map (fun txn => set_original_date txn (Some (date txn)))
                     (t0 :: rest)).
    assert (Hne : stored <> []) by discriminate.
    destruct (String.eqb method "preserve_spacing").
    + destruct (preserve_redated stored s e Hne) as (out & Hp & Hf).
      exists out. split; [exact Hp|].
      apply Forall2_map_l in Hf. split; [|exact Hf].
      symmetry. exact (Forall2_length Hf).
    + pose proof (uniform_redated stored s e) as Hf.
      eexists. split; [reflexivity|].
      apply Forall2_map_l in Hf. split; [|exact Hf].
      symmetry. exact (Forall2_length Hf).
Qed.

(** C4 (as stated, refuted).  With proportional spacing the output order
    follows the original dates, not the list positions: the list
    [2024-01-05; 2024-01-01] sequenced into [2024-02-01, 2024-02-29]
    (ordinals 738917 and 738945) becomes [2024-02-29; 2024-02-01], so the
    first transaction is later than the second. *)
Lemma sequence_dates_order_counterexample :
  exists out o0 o1,
    DateSequencer.sequence_dates unsorted_txns 738917 738945 "preserve_spacing"
      = Some out /\
    nth_error out 0 = Some o0 /\ nth_error out 1 = Some o1 /\
    date o0 = 738945 /\ date o1 = 738917 /\ date o1 < date o0.
Proof.
  do 3 eexists. split; [vm_compute; reflexivity|].
  split; [reflexivity|]. split; [reflexivity|].
  vm_compute. repeat split; reflexivity.
Qed.

(** C4 (amended).  For [start_date <= end_date] the list is never reordered
    and the new dates are ordered as follows: under uniform distribution
    (any method flag other than ["preserve_spacing"]) they are non-decreasing
    with list position; under proportional spacing they follow the original
    dates: a transaction with an earlier original date never gets a later
    new date (it may get the same one), and equal original dates keep list
    order.  Hence the output is non-decreasing by position under either
    method whenever the input dates are; an input listed out of
    chronological order can come out with decreasing dates under
    proportional spacing (the counterexample above). *)
Theorem sequence_dates_monotone (txns : list Transaction) (s e : Z)
    (method : string) (out : list Transaction) (i j : nat)
    (ti tj oi oj : Transaction) :
  s <= e ->
  DateSequencer.sequence_dates txns s e method = Some out ->
  nth_error txns i = Some ti -> nth_error txns j = Some tj ->
  nth_error out i = Some oi -> nth_error out j = Some oj ->
  (if String.eqb method "preserve_spacing"
   then date ti < date tj \/ (date ti = date tj /\ (i <= j)%nat)
   else (i <= j)%nat) ->
  date oi <= date oj.
Proof.
  intros Hse Hseq Hi Hj Hoi Hoj Hkey.
  destruct txns as [|t0 rest]; [destruct i; discriminate|].
  unfold DateSequencer.sequence_dates in Hseq.
  set (f := fun txn => set_original_date txn (Some (date txn))) in Hseq.
  assert (Hi' : nth_error (map f (t0 :: rest)) i = Some (f ti))
    by (rewrite nth_error_map, Hi; reflexivity).
  assert (Hj' : nth_error (map f (t0 :: rest)) j = Some (f tj))
    by (rewrite nth_error_map, Hj; reflexivity).
  destruct (String.eqb method "preserve_spacing").
  - exact (preserve_dates_monotone _ s e out i j (f ti) (f tj) oi oj
             Hse Hseq Hi' Hj' Hoi Hoj Hkey).
  - injection Hseq as <-.
    exact (uniform_dates_monotone _ s e i j oi oj Hse Hkey Hoi Hoj).
Qed.

Lemma sequence_dates_monotone_witness :
  match DateSequencer.sequence_dates (transactions scenario_statement)
          738917 738945 "preserve_spacing" with
  | Some [o0; o1] => date o0 <= date o1
  | _ => False
  end.
Proof.
  destruct (DateSequencer.sequence_dates (transactions scenario_statement)
              738917 738945 "preserve_spacing") as [out|] eqn:E;
    [|vm_compute in E; discriminate].
  destruct out as [|o0 [|o1 [|o2 out]]]; try (vm_compute in E; discriminate).
  eapply (sequence_dates_monotone (transactions scenario_statement)
           738917 738945 "preserve_spacing" [o0; o1] 0 1 _ _ o0 o1).
  - lia.
  - exact E.
  - reflexivity.
  - reflexivity.
  - reflexivity.
  - reflexivity.
  - vm_compute. left. reflexivity.
Defined.

(** C5.  On a non-empty list whose transactions all carry the same date,
    proportional spacing gives exactly the result of uniform distribution
    on the same window. *)
Theorem preserve_spacing_same_dates_is_uniform (txns : list Transaction)
    (s e d : Z) :
  txns <> [] ->
  Forall (fun t => date t = d) txns ->
  DateSequencer.sequence_dates txns s e "preserve_spacing" =
    DateSequencer.sequence_dates txns s e "uniform".
Proof.
  intros Hne Hall. destruct txns as [|t0 rest]; [contradiction|].
  unfold DateSequencer.sequence_dates. cbn [String.eqb Ascii.eqb Bool.eqb].
  unfold DateSequencer._preserve_spacing.
  rewrite (nodup_const _ d).
  - reflexivity.
  - discriminate.
  - rewrite map_map. apply Forall_map. simpl.
    eapply Forall_impl; [|exact Hall]. intros t Ht. exact Ht.
Qed.

Lemma preserve_spacing_same_dates_is_uniform_witness :
  DateSequencer.sequence_dates same_day_txns 738917 738945 "preserve_spacing" =
    DateSequencer.sequence_dates same_day_txns 738917 738945 "uniform".
Proof.
  apply (preserve_spacing_same_dates_is_uniform same_day_txns 738917 738945 738886).
  - discriminate.
  - repeat constructor.
Defined.

(** ** Lemmas on [float(str)] *)

Section FloatParseLemmas.
Import LLMExtractor.
Local Open Scope N_scope.












Lemma digit_not_zero_char (c : N) : is_digit c = true -> c <> 46.
Proof.
  unfold is_digit. intros H. apply andb_prop in H. destruct H as [H1 _].
  apply N.leb_le in H1. lia.
Qed.













End FloatParseLemmas.

Section ExtractorLemmas.
Import LLMExtractor.
Local Open Scope N_scope.





Lemma fold_right_no_match {A} (f : pystr -> option A) (g : A -> TxnDict)
    (lines : list pystr) :
  (forall ln, In ln lines -> f ln = None) ->
  fold_right (fun ln acc => match f ln with Some m => g m :: acc | None => acc end)
    [] lines = [].
Proof.
  induction lines as [|ln lines IH]; intros H; simpl; [reflexivity|].
  rewrite (H ln (or_introl eq_refl)). apply IH. intros l Hl. apply H. right. exact Hl.
Qed.

(** A present token: [float] of the cleaned text, rounded, or [0.0]. *)
Lemma parse_amount_some (t : pystr) :
  _parse_amount (Some t) =
  match py_float (filter (fun c => negb (amount_junk c)) t) with
  | Some v => round2f v
  | None => 0.0%float
  end.
Proof. destruct t; reflexivity. Qed.

End ExtractorLemmas.

(** ** Claims on the offline extractor *)

(** C6.  For a matched row with parsed leading tokens [a1] and [a2] (an
    absent token parses to 0.0): exactly one non-zero token becomes credit
    (if it is [a1]) or debit (if it is [a2]) with the other field 0.0; both
    zero gives credit = debit = 0.0; both non-zero also gives
    credit = debit = 0.0. *)
Theorem credit_debit_disambiguation (m : LLMExtractor.RowMatch) :
  let a1 := LLMExtractor._parse_amount (LLMExtractor.m_amount1 m) in
  let a2 := LLMExtractor._parse_amount (LLMExtractor.m_amount2 m) in
  let row := LLMExtractor.build_row m in
  (PrimFloat.eqb a1 0.0%float = false -> PrimFloat.eqb a2 0.0%float = true ->
     LLMExtractor.d_credit row = a1 /\ LLMExtractor.d_debit row = 0.0%float) /\
  (PrimFloat.eqb a1 0.0%float = true -> PrimFloat.eqb a2 0.0%float = false ->
     LLMExtractor.d_credit row = 0.0%float /\ LLMExtractor.d_debit row = a2) /\
  (PrimFloat.eqb a1 0.0%float = true -> PrimFloat.eqb a2 0.0%float = true ->
     LLMExtractor.d_credit row = 0.0%float /\ LLMExtractor.d_debit row = 0.0%float) /\
  (PrimFloat.eqb a1 0.0%float = false -> PrimFloat.eqb a2 0.0%float = false ->
     LLMExtractor.d_credit row = 0.0%float /\ LLMExtractor.d_debit row = 0.0%float).
Proof.
  cbv zeta. unfold LLMExtractor.build_row. cbn [LLMExtractor.d_credit LLMExtractor.d_debit].
  unfold LLMExtractor.decide_credit, LLMExtractor.decide_debit, LLMExtractor.py_truthy.
  set (a1 := LLMExtractor._parse_amount (LLMExtractor.m_amount1 m)).
  set (a2 := LLMExtractor._parse_amount (LLMExtractor.m_amount2 m)).
  destruct (PrimFloat.eqb a1 0.0%float) eqn:E1, (PrimFloat.eqb a2 0.0%float) eqn:E2;
    cbn [negb andb];
    refine (conj _ (conj _ (conj _ _))); intros H1 H2;
    solve [split; reflexivity | discriminate].
Qed.

Lemma credit_debit_disambiguation_witness :
  LLMExtractor.d_credit (LLMExtractor.build_row salary_row) =
    LLMExtractor._parse_amount (LLMExtractor.m_amount1 salary_row) /\
  LLMExtractor.d_debit (LLMExtractor.build_row salary_row) = 0.0%float.
Proof.
  destruct (credit_debit_disambiguation salary_row) as [H _].
  apply H.
  - vm_compute. reflexivity.
  - vm_compute. reflexivity.
Defined.




(** C8 (code defect).  The backfill tests [t["balance"] == 0.0] instead of
    whether the balance token was captured.  For the row
    [2024-01-01 Fee 0.00 50.00 0.00] after an opening balance of 100.00 the
    captured balance is 0.00, yet the row is emitted with the running total
    50.00, and the running total is not reset to 0.00. *)
Theorem backfill_captured_zero_balance :
  let row := LLMExtractor.build_row fee_row in
  LLMExtractor.m_balance fee_row <> None /\
  LLMExtractor.d_balance row = 0.0%float /\
  map LLMExtractor.d_balance (LLMExtractor.backfill 100.0%float [row]) = [50.0%float] /\
  PrimFloat.eqb 50.0%float 0.0%float = false.
Proof.
  vm_compute. repeat split; try discriminate; reflexivity.
Qed.

(** C9.  When no line of the text matches the transaction-row pattern, the
    payload holds exactly one placeholder transaction dated [today], labelled
    ["Parsed with offline rules"], with zero credit and debit and balance
    equal to the opening balance, which is the extracted one (or 0.0), and
    [closing_balance] equals [opening_balance].  The extractor is a total
    function of the text: no path raises. *)
Theorem extract_no_rows_placeholder
    (find : list string -> list LLMExtractor.pystr -> option LLMExtractor.pystr)
    (txn_match : LLMExtractor.pystr -> option LLMExtractor.RowMatch)
    (today raw_text : LLMExtractor.pystr) :
  (forall ln, In ln (LLMExtractor.text_lines raw_text) -> txn_match ln = None) ->
  let p := LLMExtractor._extract_with_rules find txn_match today raw_text in
  LLMExtractor.p_transactions p =
    [LLMExtractor.mkTxnDict today (LLMExtractor.of_ascii "Parsed with offline rules")
       0.0%float 0.0%float (LLMExtractor.p_opening_balance p) None] /\
  LLMExtractor.p_closing_balance p = LLMExtractor.p_opening_balance p /\
  LLMExtractor.p_opening_balance p =
    match find ["opening\s*balance[:\-]\s*([₹$]?[\d,]+(?:\.\d{1,2})?)"]%string
            (LLMExtractor.text_lines raw_text) with
    | Some ((_ :: _) as m) => LLMExtractor._parse_amount (Some m)
    | _ => 0.0%float
    end.
Proof.
  intros Hnone. unfold LLMExtractor._extract_with_rules. cbv zeta.
  rewrite (fold_right_no_match txn_match LLMExtractor.build_row _ Hnone).
  repeat split; reflexivity.
Qed.

Lemma extract_no_rows_placeholder_witness :
  LLMExtractor.p_transactions
    (LLMExtractor._extract_with_rules (fun _ _ => None) (fun _ => None)
       (LLMExtractor.of_ascii "2026-10-19")
       (LLMExtractor.of_ascii "no transactions here")) =
  [LLMExtractor.mkTxnDict (LLMExtractor.of_ascii "2026-10-19")
     (LLMExtractor.of_ascii "Parsed with offline rules") 0.0%float 0.0%float 0.0%float None].
Proof.
  destruct (extract_no_rows_placeholder (fun _ _ => None) (fun _ => None)
              (LLMExtractor.of_ascii "2026-10-19")
              (LLMExtractor.of_ascii "no transactions here")) as [H _].
  - intros ln _. reflexivity.
  - exact H.
Defined.

(** ** Claims on the statement model *)

(** C10 (as stated, refuted).  Assigning [credit] after construction stores
    the value as given: after [txn.credit = 0.001] the field holds 0.001, not
    [round(0.001, 2) = 0.0]. *)
Lemma transaction_assignment_counterexample :
  let t := set_credit (example_txn 738886 "Edited" 0.0%float 0.0%float) 0.001%float in
  credit t = 0.001%float /\ PrimFloat.eqb (credit t) (round2f 0.001%float) = false.
Proof.
  split.
  - reflexivity.
  - vm_compute. reflexivity.
Qed.

(** C10 (amended).  Constructing a [Transaction] stores [round(v, 2)] for
    each of [credit], [debit] and [balance]; a later attribute assignment to
    one of these fields stores the assigned value unchanged and leaves the
    other fields as they were. *)
Theorem transaction_rounding (d : Z) (desc : string) (c db b : PrimFloat.float)
    (r : option string) (od : option Z) (t : Transaction) (v : PrimFloat.float) :
  let t0 := Transaction_validate d desc c db b r od in
  credit t0 = round2f c /\ debit t0 = round2f db /\ balance t0 = round2f b /\
  set_credit t v = mkTransaction (date t) (description t) v (debit t)
                     (balance t) (ref t) (original_date t) /\
  set_debit t v = mkTransaction (date t) (description t) (credit t) v
                    (balance t) (ref t) (original_date t) /\
  set_balance t v = mkTransaction (date t) (description t) (credit t)
                      (debit t) v (ref t) (original_date t).
Proof. repeat split. Qed.

(** * Further properties of the code *)

(** ** Balance calculator *)

(** X1.  [recalculate] writes only the balances, the totals and the closing
    balance: the header, page ranges, extra columns and opening balance are
    kept, and the transaction list keeps its length and every field of every
    transaction other than [balance]. *)
Theorem recalculate_frame (s : BankStatement) :
  let s' := BalanceCalculator.recalculate s in
  header s' = header s /\ original_page_ranges s' = original_page_ranges s /\
  extra_columns s' = extra_columns s /\ opening_balance s' = opening_balance s /\
  map strip (transactions s') = map strip (transactions s).
Proof.
  destruct s as [h txns pr ec b cb tc td]. cbv zeta.
  unfold BalanceCalculator.recalculate. cbn [transactions opening_balance].
  pose proof (recalc_loop_strip_out txns b 0.0%float 0.0%float) as Hs.
  destruct (BalanceCalculator.recalc_loop b 0.0%float 0.0%float txns)
    as [out [[r tc'] td']].
  cbn [fst] in Hs. cbn. repeat split. exact Hs.
Qed.

(** X3.  On a statement without transactions, [recalculate] sets both totals
    to 0.0 and the closing balance to the opening balance rounded to 2
    places. *)
Theorem recalculate_no_transactions (s : BankStatement) :
  transactions s = [] ->
  let s' := BalanceCalculator.recalculate s in
  transactions s' = [] /\ total_credits s' = 0.0%float /\
  total_debits s' = 0.0%float /\ closing_balance s' = round2f (opening_balance s).
Proof.
  destruct s as [h txns pr ec b cb tc td]. cbn [transactions]. intros ->.
  cbv zeta. unfold BalanceCalculator.recalculate. cbn.
  repeat split; reflexivity.
Qed.

Lemma recalculate_no_transactions_witness :
  let s' := BalanceCalculator.recalculate (example_statement 12.345%float []) in
  closing_balance s' = round2f 12.345%float.
Proof.
  destruct (recalculate_no_transactions (example_statement 12.345%float []))
    as (_ & _ & _ & H); [reflexivity|].
  exact H.
Defined.

(** X4.  Appending transactions never changes the balances [recalculate]
    gives to the transactions already there: the first [n] transactions of
    the recalculated longer list are those of the recalculated original list
    of length [n]. *)
Theorem recalculate_append (s : BankStatement) (more : list Transaction) :
  firstn (List.length (transactions s))
    (transactions (BalanceCalculator.recalculate
       (set_transactions s (transactions s ++ more)))) =
  transactions (BalanceCalculator.recalculate s).
Proof.
  destruct s as [h txns pr ec b cb tc td].
  unfold BalanceCalculator.recalculate, set_transactions.
  cbn [transactions opening_balance header original_page_ranges extra_columns
       closing_balance total_credits total_debits].
  rewrite recalc_loop_app.
  pose proof (recalc_loop_length txns b 0.0%float 0.0%float) as Hl.
  destruct (BalanceCalculator.recalc_loop b 0.0%float 0.0%float txns)
    as [o1 [[r1 tc1] td1]].
  cbn [fst] in Hl.
  destruct (BalanceCalculator.recalc_loop r1 tc1 td1 more) as [o2 [[r2 tc2] td2]].
  cbn [transactions]. rewrite <- Hl, firstn_app, Nat.sub_diag, firstn_O, app_nil_r.
  apply firstn_all.
Qed.

(** ** Date sequencer *)

Section DateLemmas3.
Import DateSequencer.

Lemma fold_min_in (ds : list Z) :
  forall a, fold_left Z.min ds a = a \/ In (fold_left Z.min ds a) ds.
Proof.
  induction ds as [|y ds IH]; intros a; simpl; [left; reflexivity|].
  destruct (IH (Z.min a y)) as [H|H]; [|right; right; exact H].
  rewrite H. destruct (Z.min_spec a y) as [[_ ->]|[_ ->]]; auto.
Qed.

Lemma fold_max_in (ds : list Z) :
  forall a, fold_left Z.max ds a = a \/ In (fold_left Z.max ds a) ds.
Proof.
  induction ds as [|y ds IH]; intros a; simpl; [left; reflexivity|].
  destruct (IH (Z.max a y)) as [H|H]; [|right; right; exact H].
  rewrite H. destruct (Z.max_spec a y) as [[_ ->]|[_ ->]]; auto.
Qed.

Lemma fold_min_mem (d : Z) (ds : list Z) : In (fold_left Z.min ds d) (d :: ds).
Proof. destruct (fold_min_in ds d) as [->|H]; [left; reflexivity | right; exact H]. Qed.

Lemma fold_max_mem (d : Z) (ds : list Z) : In (fold_left Z.max ds d) (d :: ds).
Proof. destruct (fold_max_in ds d) as [->|H]; [left; reflexivity | right; exact H]. Qed.

Lemma uniform_day_range (n : nat) (s e : Z) (i : nat) :
  s <= e -> e - s < 2 ^ 50 -> (i < n)%nat -> Z.of_nat n <= 2 ^ 63 ->
  s <= uniform_day n s e i <= e.
Proof.
  intros Hse HT Hi Hn. unfold uniform_day.
  destruct (Nat.eqb n 1) eqn:E; [lia|]. apply Nat.eqb_neq in E.
  pose proof (offset_bounds (Z.of_nat i) (Z.of_nat n - 1) (e - s)
                ltac:(lia) ltac:(lia) ltac:(lia)).
  lia.
Qed.

Lemma uniform_range (l : list Transaction) (s e : Z) :
  s <= e -> e - s < 2 ^ 50 -> Z.of_nat (List.length l) <= 2 ^ 63 ->
  Forall (fun o => s <= date o <= e) (_uniform_distribution l s e).
Proof.
  intros Hse HT Hn. apply Forall_forall. intros o Ho.
  apply In_nth_error in Ho. destruct Ho as [i Hi].
  destruct (uniform_nth l s e i o Hi) as (t & Ht & ->).
  rewrite set_date_date. apply uniform_day_range; try assumption.
  apply nth_error_Some. rewrite Ht. discriminate.
Qed.

Lemma preserve_range (l : list Transaction) (s e : Z) (out : list Transaction) :
  s <= e -> e - s < 2 ^ 50 -> Z.of_nat (List.length l) <= 2 ^ 63 ->
  Forall (fun t => 1 <= date t <= 3652059) l ->
  _preserve_spacing l s e = Some out ->
  Forall (fun o => s <= date o <= e) out.
Proof.
  intros Hse HT Hn Hd H. unfold _preserve_spacing in H. cbv zeta in H.
  destruct (Nat.eqb (List.length (nodup Z.eq_dec (map date l))) 1).
  { injection H as <-. apply uniform_range; assumption. }
  assert (Hdm : Forall (fun x => 1 <= x <= 3652059) (map date l))
    by (apply Forall_map; exact Hd).
  destruct (map date l) as [|d ds] eqn:Em; [discriminate|].
  destruct (Z.eqb (fold_left Z.max ds d - fold_left Z.min ds d) 0) eqn:E2.
  { injection H as <-. apply uniform_range; assumption. }
  injection H as <-. apply Z.eqb_neq in E2.
  rewrite Forall_forall in Hdm.
  pose proof (Hdm _ (fold_min_mem d ds)) as Bmin.
  pose proof (Hdm _ (fold_max_mem d ds)) as Bmax.
  apply Forall_map, Forall_forall. intros t Ht. rewrite set_date_date.
  assert (Hin : In (date t) (d :: ds)) by (rewrite <- Em; apply in_map; exact Ht).
  pose proof (min_max_bounds d ds _ Hin) as Hb.
  pose proof (offset_bounds (date t - fold_left Z.min ds d)
                (fold_left Z.max ds d - fold_left Z.min ds d) (e - s)
                ltac:(lia) ltac:(lia) ltac:(lia)).
  lia.
Qed.

End DateLemmas3.

(** X5.  For a window of valid dates [start_date <= end_date] (day numbers
    of [date.toordinal], 1 to 3652059) and transactions carrying valid
    dates, every date [sequence_dates] assigns lies in
    [[start_date, end_date]], under either method. *)
Theorem sequence_dates_within_window (txns : list Transaction) (s e : Z)
    (method : string) (out : list Transaction) :
  1 <= s <= e -> e <= 3652059 ->
  Forall (fun t => 1 <= date t <= 3652059) txns ->
  Z.of_nat (List.length txns) <= 2 ^ 63 ->
  DateSequencer.sequence_dates txns s e method = Some out ->
  Forall (fun o => s <= date o <= e) out.
Proof.
  intros Hse He Hd Hn H. destruct txns as [|t0 rest].
  - injection H as <-. constructor.
  - unfold DateSequencer.sequence_dates in H.
    set (stored := map (fun txn => set_original_date txn (Some (date txn)))
                     (t0 :: rest)) in H.
    assert (Hl : List.length stored = List.length (t0 :: rest)) by apply length_map.
    assert (Hds : Forall (fun t => 1 <= date t <= 3652059) stored)
      by (apply Forall_map; exact Hd).
    destruct (String.eqb method "preserve_spacing").
    + apply (preserve_range stored s e out); try assumption; lia.
    + injection H as <-. apply uniform_range; [lia | lia | rewrite Hl; exact Hn].
Qed.

Lemma sequence_dates_within_window_witness :
  match DateSequencer.sequence_dates unsorted_txns 738917 738945
          "preserve_spacing" with
  | Some out => Forall (fun o => 738917 <= date o <= 738945) out
  | None => False
  end.
Proof.
  destruct (DateSequencer.sequence_dates unsorted_txns 738917 738945
              "preserve_spacing") as [out|] eqn:E; [|vm_compute in E; discriminate].
  apply (sequence_dates_within_window unsorted_txns 738917 738945
           "preserve_spacing" out); [lia | lia | repeat constructor; simpl; lia
           | simpl; lia | exact E].
Defined.

Section ExtractorLemmas3.
Import LLMExtractor.
Local Open Scope N_scope.

Lemma splitlines_aux_no_break (n : nat) :
  forall s cur, (List.length s <= n)%nat ->
  Forall (fun c => is_line_break c = false) cur ->
  Forall (Forall (fun c => is_line_break c = false)) (splitlines_aux cur s).
Proof.
  induction n as [|n IH]; intros s cur Hlen Hcur.
  - destruct s; [|simpl in Hlen; lia]. simpl.
    destruct cur; constructor; [apply Forall_rev; exact Hcur | constructor].
  - destruct s as [|c r].
    + simpl. destruct cur; constructor; [apply Forall_rev; exact Hcur | constructor].
    + simpl in Hlen. simpl.
      destruct (c =? 13) eqn:E13.
      * destruct r as [|c' r'].
        -- constructor; [apply Forall_rev; exact Hcur | constructor].
        -- destruct (c' =? 10).
           ++ constructor; [apply Forall_rev; exact Hcur|].
              apply IH; [simpl in Hlen; lia | constructor].
           ++ constructor; [apply Forall_rev; exact Hcur|].
              apply IH; [simpl in Hlen |- *; lia | constructor].
      * destruct (is_line_break c) eqn:Eb.
        -- constructor; [apply Forall_rev; exact Hcur|].
           apply IH; [lia | constructor].
        -- apply IH; [lia | constructor; assumption].
Qed.

Lemma lstrip_Forall (P : N -> Prop) (s : pystr) : Forall P s -> Forall P (lstrip s).
Proof.
  induction 1 as [|c r Hc Hr IH]; simpl; [constructor|].
  destruct (py_isspace c); [exact IH | constructor; assumption].
Qed.

Lemma strip_Forall (P : N -> Prop) (s : pystr) :
  Forall P s -> Forall P (LLMExtractor.strip s).
Proof.
  intros H. unfold LLMExtractor.strip.
  apply Forall_rev, lstrip_Forall, Forall_rev, lstrip_Forall. exact H.
Qed.

Lemma lstrip_head (s : pystr) (c : N) (r : pystr) :
  lstrip s = c :: r -> py_isspace c = false.
Proof.
  induction s as [|a s IH]; simpl; [discriminate|].
  destruct (py_isspace a) eqn:E; [exact IH|]. intros H. injection H as <- _. exact E.
Qed.

Lemma lstrip_snoc (l : pystr) (c : N) :
  py_isspace c = false -> exists w, lstrip (l ++ [c]) = w ++ [c].
Proof.
  intros Hc. induction l as [|a l IH]; simpl.
  - rewrite Hc. exists []. reflexivity.
  - destruct (py_isspace a); [exact IH|]. exists (a :: l). reflexivity.
Qed.

Lemma strip_head (s : pystr) (c : N) (r : pystr) :
  LLMExtractor.strip s = c :: r -> py_isspace c = false.
Proof.
  unfold LLMExtractor.strip. destruct (lstrip s) as [|a u] eqn:E.
  - simpl. discriminate.
  - pose proof (lstrip_head s a u E) as Ha.
    simpl rev. destruct (lstrip_snoc (rev u) a Ha) as [w ->].
    rewrite rev_app_distr. simpl. intros H. injection H as <- _. exact Ha.
Qed.

Lemma strip_last (s : pystr) :
  LLMExtractor.strip s <> [] -> py_isspace (last (LLMExtractor.strip s) 0) = false.
Proof.
  unfold LLMExtractor.strip.
  destruct (lstrip (rev (lstrip s))) as [|a v] eqn:E; [simpl; contradiction|].
  intros _. simpl rev. rewrite last_last. exact (lstrip_head _ a v E).
Qed.

Lemma lstrip_app_space (ws s : pystr) :
  Forall (fun c => py_isspace c = true) ws -> lstrip (ws ++ s) = lstrip s.
Proof. induction 1 as [|c ws Hc _ IH]; simpl; [reflexivity|]. rewrite Hc. exact IH. Qed.

Lemma lstrip_keep (c : N) (r : pystr) : py_isspace c = false -> lstrip (c :: r) = c :: r.
Proof. intros H. simpl. rewrite H. reflexivity. Qed.

(** [strip] removes exactly the whitespace around a text that starts and ends
    with a non-space character. *)
Lemma strip_core (ws0 core ws1 : pystr) (a z : N) (mid mid' : pystr) :
  Forall (fun c => py_isspace c = true) ws0 ->
  Forall (fun c => py_isspace c = true) ws1 ->
  core = a :: mid -> core = mid' ++ [z] ->
  py_isspace a = false -> py_isspace z = false ->
  LLMExtractor.strip (ws0 ++ core ++ ws1) = core.
Proof.
  intros H0 H1 Ea Ez Ha Hz. unfold LLMExtractor.strip.
  rewrite lstrip_app_space by exact H0.
  assert (Hl : lstrip (core ++ ws1) = core ++ ws1).
  { rewrite Ea. cbn [app]. apply lstrip_keep. exact Ha. }
  rewrite Hl, rev_app_distr, lstrip_app_space by (apply Forall_rev; exact H1).
  rewrite Ez at 1. rewrite rev_app_distr. cbn [rev app].
  rewrite lstrip_keep by exact Hz.
  change (z :: rev mid') with (rev [z] ++ rev mid').
  rewrite <- rev_app_distr, rev_involutive. symmetry. exact Ez.
Qed.

Lemma startswith_app (p s : pystr) : startswith (p ++ s) p = true.
Proof.
  induction p as [|c p IH]; [destruct s; reflexivity|].
  simpl. rewrite N.eqb_refl. exact IH.
Qed.

Lemma endswith_app (s p : pystr) : endswith (s ++ p) p = true.
Proof. unfold endswith. rewrite rev_app_distr. apply startswith_app. Qed.

Lemma backfill_frame_aux (l : list TxnDict) :
  forall b,
  Forall2 (fun t t' => t' = set_d_balance t (d_balance t') /\
                       (PrimFloat.eqb (d_balance t) 0.0%float = false -> t' = t))
    l (backfill b l).
Proof.
  induction l as [|t l IH]; intros b; cbn [backfill]; [constructor|].
  destruct (PrimFloat.eqb (d_balance t) 0.0%float) eqn:E.
  - constructor; [|apply IH]. split; [reflexivity|]. intros H. congruence.
  - constructor; [|apply IH]. split; [destruct t; reflexivity | reflexivity].
Qed.

Lemma backfill_length (l : list TxnDict) (b : PrimFloat.float) :
  List.length (backfill b l) = List.length l.
Proof. symmetry. exact (Forall2_length (backfill_frame_aux l b)). Qed.

Lemma last_map_ne {A B} (g : A -> B) (l : list A) (x : B) (d : A) :
  l <> [] -> last (map g l) x = g (last l d).
Proof.
  intros Hne. induction l as [|a l IH]; [contradiction|].
  destruct l as [|a' l]; [reflexivity|].
  change (last (map g (a :: a' :: l)) x) with (last (map g (a' :: l)) x).
  change (last (a :: a' :: l) d) with (last (a' :: l) d).
  apply IH. discriminate.
Qed.

Lemma Forall_last {A} (P : A -> Prop) (l : list A) (d : A) :
  Forall P l -> P d -> P (last l d).
Proof.
  induction 1 as [|a l Ha Hl IH]; intros Hd; [exact Hd|].
  destruct l as [|a' l]; [exact Ha|]. apply IH. exact Hd.
Qed.

Lemma fold_rows (txn_match : pystr -> option RowMatch) (lines : list pystr) :
  fold_right (fun ln acc =>
    match txn_match ln with Some m => build_row m :: acc | None => acc end) [] lines =
  map build_row (flat_map (fun ln =>
    match txn_match ln with Some m => [m] | None => [] end) lines).
Proof.
  induction lines as [|ln lines IH]; simpl; [reflexivity|].
  destruct (txn_match ln); simpl; rewrite IH; reflexivity.
Qed.

Lemma py_or_ne (x : option pystr) (default : pystr) :
  default <> [] -> py_or x default <> [].
Proof.
  intros Hd. destruct x as [l|]; [destruct l as [|c l]|]; simpl;
    [exact Hd | discriminate | exact Hd].
Qed.

Lemma trunc_text (m : nat) (raw more : pystr) :
  (m <= List.length raw)%nat ->
  (if Nat.ltb m (List.length (raw ++ more)) then firstn m (raw ++ more)
   else raw ++ more) =
  (if Nat.ltb m (List.length raw) then firstn m raw else raw).
Proof.
  intros Hm.
  assert (Hf : firstn m (raw ++ more) = firstn m raw).
  { rewrite firstn_app. replace (m - List.length raw)%nat with 0%nat by lia.
    rewrite firstn_O, app_nil_r. reflexivity. }
  destruct (Nat.ltb m (List.length raw)) eqn:E1.
  - apply Nat.ltb_lt in E1.
    assert (E2 : Nat.ltb m (List.length (raw ++ more)) = true)
      by (apply Nat.ltb_lt; rewrite length_app; lia).
    rewrite E2. exact Hf.
  - apply Nat.ltb_ge in E1.
    assert (Hraw : firstn m raw = raw) by (apply firstn_all2; exact E1).
    destruct (Nat.ltb m (List.length (raw ++ more))) eqn:E2.
    + rewrite Hf. exact Hraw.
    + assert (Hmore : more = []).
      { destruct more as [|c more]; [reflexivity|].
        exfalso. apply Nat.ltb_ge in E2. rewrite length_app in E2. simpl in E2. lia. }
      subst more. apply app_nil_r.
Qed.

End ExtractorLemmas3.

(** X9.  Every line the offline rules look at is non-empty, contains no line
    break, and neither starts nor ends with whitespace. *)
Theorem text_lines_clean (raw_text ln : LLMExtractor.pystr) :
  In ln (LLMExtractor.text_lines raw_text) ->
  ln <> [] /\
  Forall (fun c => LLMExtractor.is_line_break c = false) ln /\
  (forall c r, ln = c :: r -> LLMExtractor.py_isspace c = false) /\
  LLMExtractor.py_isspace (last ln 0%N) = false.
Proof.
  unfold LLMExtractor.text_lines. intros Hin.
  apply in_map_iff in Hin as (ln0 & <- & Hin).
  apply filter_In in Hin as (Hsplit & Hne).
  assert (Hne' : LLMExtractor.strip ln0 <> []).
  { destruct (LLMExtractor.strip ln0); [discriminate | intros H; discriminate H]. }
  split; [exact Hne'|]. split; [|split].
  - apply strip_Forall.
    pose proof (splitlines_aux_no_break (List.length raw_text) raw_text []
                  (le_n _) (Forall_nil _)) as Hall.
    rewrite Forall_forall in Hall. apply Hall. exact Hsplit.
  - intros c r Hcr. exact (strip_head ln0 c r Hcr).
  - apply strip_last. exact Hne'.
Qed.

Lemma text_lines_clean_witness :
  In (LLMExtractor.of_ascii "b c") (LLMExtractor.text_lines
        (LLMExtractor.of_ascii "a" ++ [10%N; 32%N] ++ LLMExtractor.of_ascii "b c" ++ [13%N; 10%N])) /\
  Forall (fun c => LLMExtractor.is_line_break c = false) (LLMExtractor.of_ascii "b c").
Proof.
  assert (H : In (LLMExtractor.of_ascii "b c") (LLMExtractor.text_lines
        (LLMExtractor.of_ascii "a" ++ [10%N; 32%N] ++ LLMExtractor.of_ascii "b c" ++ [13%N; 10%N])))
    by (vm_compute; right; left; reflexivity).
  split; [exact H|].
  exact (proj1 (proj2 (text_lines_clean _ _ H))).
Defined.

(** X10.  [_parse_amount] only looks at the characters it does not strip:
    two tokens that agree once the rupee and dollar signs, commas and
    whitespace are removed parse to the same amount. *)
Theorem parse_amount_ignores_separators (t1 t2 : LLMExtractor.pystr) :
  filter (fun c => negb (LLMExtractor.amount_junk c)) t1 =
  filter (fun c => negb (LLMExtractor.amount_junk c)) t2 ->
  LLMExtractor._parse_amount (Some t1) = LLMExtractor._parse_amount (Some t2).
Proof.
  intros H. rewrite !parse_amount_some, H. reflexivity.
Qed.

Lemma parse_amount_ignores_separators_witness :
  LLMExtractor._parse_amount (Some (LLMExtractor.of_ascii "1,000.50")) =
  LLMExtractor._parse_amount (Some ([8377%N; 32%N] ++ LLMExtractor.of_ascii "1000.50")) /\
  LLMExtractor._parse_amount (Some (LLMExtractor.of_ascii "1,000.50")) = 1000.5%float.
Proof.
  split.
  - apply parse_amount_ignores_separators. vm_compute. reflexivity.
  - vm_compute. reflexivity.
Defined.

(** X12.  The backfill changes nothing but balances, and only the zero
    ones: each output row is its input row with some balance, and a row
    whose balance is non-zero comes out unchanged. *)
Theorem backfill_frame (b : PrimFloat.float) (l : list LLMExtractor.TxnDict) :
  Forall2 (fun t t' =>
      t' = LLMExtractor.set_d_balance t (LLMExtractor.d_balance t') /\
      (PrimFloat.eqb (LLMExtractor.d_balance t) 0.0%float = false -> t' = t))
    l (LLMExtractor.backfill b l).
Proof. exact (backfill_frame_aux l b). Qed.

(** X13.  The offline payload always has at least one transaction, and its
    closing balance is the balance of the last one. *)
Theorem extract_closing_last
    (find : list string -> list LLMExtractor.pystr -> option LLMExtractor.pystr)
    (txn_match : LLMExtractor.pystr -> option LLMExtractor.RowMatch)
    (today raw_text : LLMExtractor.pystr) :
  let p := LLMExtractor._extract_with_rules find txn_match today raw_text in
  LLMExtractor.p_transactions p <> [] /\
  LLMExtractor.p_closing_balance p =
    LLMExtractor.d_balance
      (last (LLMExtractor.p_transactions p) (LLMExtractor.placeholder today 0.0%float)).
Proof.
  unfold LLMExtractor._extract_with_rules. cbv zeta.
  destruct (fold_right _ [] _) as [|r rs] eqn:E.
  - split; [discriminate | reflexivity].
  - match goal with |- context [LLMExtractor.backfill ?ob (r :: rs)] =>
      destruct (LLMExtractor.backfill ob (r :: rs)) as [|f fs] eqn:F;
      [ apply (f_equal (@List.length _)) in F;
        rewrite backfill_length in F; discriminate F | ] end.
    cbn iota beta. split; [discriminate|].
    apply last_map_ne. discriminate.
Qed.

(** X14.  When some line matches the row pattern, the payload's transactions
    are exactly the matched rows, in line order: each is the row built from
    its match, with only a zero balance possibly replaced by the backfill. *)
Theorem extract_rows
    (find : list string -> list LLMExtractor.pystr -> option LLMExtractor.pystr)
    (txn_match : LLMExtractor.pystr -> option LLMExtractor.RowMatch)
    (today raw_text : LLMExtractor.pystr) :
  let ms := flat_map (fun ln => match txn_match ln with Some m => [m] | None => [] end)
              (LLMExtractor.text_lines raw_text) in
  ms <> [] ->
  Forall2 (fun m t =>
      t = LLMExtractor.set_d_balance (LLMExtractor.build_row m) (LLMExtractor.d_balance t) /\
      (PrimFloat.eqb (LLMExtractor.d_balance (LLMExtractor.build_row m)) 0.0%float = false ->
       t = LLMExtractor.build_row m))
    ms (LLMExtractor.p_transactions
          (LLMExtractor._extract_with_rules find txn_match today raw_text)).
Proof.
  cbv zeta. intros Hne. unfold LLMExtractor._extract_with_rules. cbv zeta.
  rewrite fold_rows.
  destruct (flat_map _ _) as [|m0 ms] eqn:E; [contradiction|].
  cbn [map].
  match goal with |- context [LLMExtractor.backfill ?ob (LLMExtractor.build_row m0 :: ?rest)] =>
    pose proof (backfill_frame_aux (LLMExtractor.build_row m0 :: rest) ob) as Hf;
    destruct (LLMExtractor.backfill ob (LLMExtractor.build_row m0 :: rest)) as [|f fs] eqn:F;
    [ apply (f_equal (@List.length _)) in F;
      rewrite backfill_length in F; discriminate F | ] end.
  cbn iota beta. cbn [LLMExtractor.p_transactions].
  change (LLMExtractor.build_row m0 :: map LLMExtractor.build_row ms)
    with (map LLMExtractor.build_row (m0 :: ms)) in Hf.
  apply Forall2_map_l in Hf. exact Hf.
Qed.

Lemma extract_rows_witness :
  Forall2 (fun m t =>
      t = LLMExtractor.set_d_balance (LLMExtractor.build_row m) (LLMExtractor.d_balance t) /\
      (PrimFloat.eqb (LLMExtractor.d_balance (LLMExtractor.build_row m)) 0.0%float = false ->
       t = LLMExtractor.build_row m))
    (flat_map (fun ln => match (fun _ : LLMExtractor.pystr =>
         Some (LLMExtractor.mkRowMatch (LLMExtractor.of_ascii "2024-01-01")
                 (LLMExtractor.of_ascii "Fee") None (Some (LLMExtractor.of_ascii "5.00")) None))
         ln with Some m => [m] | None => [] end)
       (LLMExtractor.text_lines (LLMExtractor.of_ascii "2024-01-01 Fee 5.00")))
    (LLMExtractor.p_transactions
       (LLMExtractor._extract_with_rules (fun _ _ => None)
          (fun _ => Some (LLMExtractor.mkRowMatch (LLMExtractor.of_ascii "2024-01-01")
                 (LLMExtractor.of_ascii "Fee") None (Some (LLMExtractor.of_ascii "5.00")) None))
          (LLMExtractor.of_ascii "2026-10-19")
          (LLMExtractor.of_ascii "2024-01-01 Fee 5.00"))).
Proof.
  apply (extract_rows (fun _ _ => None)
    (fun _ => Some (LLMExtractor.mkRowMatch (LLMExtractor.of_ascii "2024-01-01")
                 (LLMExtractor.of_ascii "Fee") None (Some (LLMExtractor.of_ascii "5.00")) None))
    (LLMExtractor.of_ascii "2026-10-19") (LLMExtractor.of_ascii "2024-01-01 Fee 5.00")).
  vm_compute. discriminate.
Defined.

(** X15.  The offline header always names a bank and an account holder,
    its account number has no spaces, and it never fills the MICR code,
    the statement period or the address. *)
Theorem extract_header_defaults
    (find : list string -> list LLMExtractor.pystr -> option LLMExtractor.pystr)
    (txn_match : LLMExtractor.pystr -> option LLMExtractor.RowMatch)
    (today raw_text : LLMExtractor.pystr) :
  let h := LLMExtractor.p_header
             (LLMExtractor._extract_with_rules find txn_match today raw_text) in
  LLMExtractor.h_bank_name h <> [] /\
  LLMExtractor.h_account_holder h <> [] /\
  ~ In 32%N (LLMExtractor.h_account_number h) /\
  LLMExtractor.h_micr h = None /\
  LLMExtractor.h_statement_period h = None /\
  LLMExtractor.h_address h = None.
Proof.
  unfold LLMExtractor._extract_with_rules. cbv zeta.
  match goal with |- context [match ?X with pair _ _ => _ end] => destruct X end.
  cbn [LLMExtractor.p_header LLMExtractor.h_bank_name LLMExtractor.h_account_holder
       LLMExtractor.h_account_number LLMExtractor.h_micr LLMExtractor.h_statement_period
       LLMExtractor.h_address].
  split; [apply py_or_ne; discriminate|].
  split; [apply py_or_ne; discriminate|].
  split; [|repeat split].
  intros Hin. apply filter_In in Hin as [_ H]. rewrite N.eqb_refl in H. discriminate H.
Qed.

(** X17.  A JSON object wrapped in a fenced json code block, with any
    whitespace around the fences and inside them, is handed to [json.loads]
    as the bare object from the first brace to the last, and the result of
    [_clean_json_response] is what [json.loads] returns there. *)
Theorem clean_json_fenced (J : Type) (json_loads : LLMExtractor.pystr -> option J)
    (ws0 ws1 ws2 ws3 body : LLMExtractor.pystr) :
  Forall (fun c => LLMExtractor.py_isspace c = true) ws0 ->
  Forall (fun c => LLMExtractor.py_isspace c = true) ws1 ->
  Forall (fun c => LLMExtractor.py_isspace c = true) ws2 ->
  Forall (fun c => LLMExtractor.py_isspace c = true) ws3 ->
  LLMExtractor._clean_json_response J json_loads
    (ws0 ++ LLMExtractor.of_ascii "```json" ++ ws1 ++ (123%N :: body ++ [125%N]) ++ ws2
         ++ LLMExtractor.of_ascii "```" ++ ws3) =
  json_loads (123%N :: body ++ [125%N]).
Proof.
  intros H0 H1 H2 H3.
  set (X := 123%N :: body ++ [125%N]).
  unfold LLMExtractor._clean_json_response.
  change (LLMExtractor.of_ascii "```json") with [96;96;96;106;115;111;110]%N.
  change (LLMExtractor.of_ascii "```") with [96;96;96]%N.
  set (F := [96;96;96;106;115;111;110]%N).
  set (M := ws1 ++ X ++ ws2).
  assert (Hcore : ws0 ++ F ++ ws1 ++ X ++ ws2 ++ [96;96;96]%N ++ ws3 =
                  ws0 ++ (F ++ M ++ [96;96;96]%N) ++ ws3)
    by (unfold M; rewrite <- !app_assoc; reflexivity).
  rewrite Hcore.
  rewrite (strip_core ws0 (F ++ M ++ [96;96;96]%N) ws3 96%N 96%N
             ([96;96;106;115;111;110]%N ++ M ++ [96;96;96]%N) (F ++ M ++ [96;96]%N)) by
    (try exact H0; try exact H3; try reflexivity;
     try (rewrite <- !app_assoc; reflexivity)).
  rewrite (startswith_app F).
  change (skipn 7 (F ++ M ++ [96;96;96]%N)) with (M ++ [96;96;96]%N).
  rewrite (endswith_app M [96;96;96]%N).
  rewrite length_app. cbn [List.length].
  replace (List.length M + 3 - 3)%nat with (List.length M) by lia.
  rewrite firstn_app, Nat.sub_diag, firstn_O, app_nil_r, firstn_all.
  unfold M. rewrite (strip_core ws1 X ws2 123%N 125%N (body ++ [125%N]) (123%N :: body))
    by (try exact H1; try exact H2; reflexivity).
  destruct (json_loads X) as [v|] eqn:Ev; [reflexivity|].
  replace (existsb (fun c => (c =? 123)%N) X) with true by reflexivity.
  replace (LLMExtractor.index_of 123 X) with 0%nat by reflexivity.
  cbn [skipn].
  assert (Hx : existsb (fun c => (c =? 125)%N) X = true).
  { apply existsb_exists. exists 125%N. split; [|reflexivity].
    unfold X. right. apply in_or_app. right. left. reflexivity. }
  rewrite Hx.
  assert (Hr : (LLMExtractor.rindex_of 125 X + 1)%nat = List.length X).
  { unfold LLMExtractor.rindex_of.
    replace (rev X) with (125%N :: rev (123%N :: body))
      by (unfold X; change (123%N :: body ++ [125%N]) with ((123%N :: body) ++ [125%N]);
          rewrite rev_app_distr; reflexivity).
    cbn [LLMExtractor.index_of]. rewrite N.eqb_refl.
    unfold X. cbn [List.length]. lia. }
  rewrite Hr, firstn_all. exact Ev.
Qed.

Lemma clean_json_fenced_witness :
  LLMExtractor._clean_json_response unit
    (fun s => if list_eq_dec N.eq_dec s [123; 125]%N then Some tt else None)
    ([10%N] ++ LLMExtractor.of_ascii "```json" ++ [10%N] ++ (123%N :: [] ++ [125%N]) ++ [10%N]
       ++ LLMExtractor.of_ascii "```" ++ []) = Some tt.
Proof.
  rewrite clean_json_fenced by (repeat constructor).
  reflexivity.
Defined.

(** X18.  Offline, [extract_structured_data] reads only the first 15000
    characters: text appended to a text that already has that many leaves
    the result unchanged. *)
Theorem extract_offline_truncates
    (find : list string -> list LLMExtractor.pystr -> option LLMExtractor.pystr)
    (txn_match : LLMExtractor.pystr -> option LLMExtractor.RowMatch)
    (today : LLMExtractor.pystr) (J : Type)
    (online_query : string -> LLMExtractor.pystr -> option J)
    (provider : string) (raw_text more : LLMExtractor.pystr) :
  (15000 <= List.length raw_text)%nat ->
  LLMExtractor.extract_structured_data find txn_match today J online_query false provider
    (raw_text ++ more) =
  LLMExtractor.extract_structured_data find txn_match today J online_query false provider
    raw_text.
Proof.
  intros Hlen. unfold LLMExtractor.extract_structured_data. cbv zeta.
  cbn [andb]. rewrite (trunc_text _ raw_text more Hlen). reflexivity.
Qed.

Lemma extract_offline_truncates_witness :
  LLMExtractor.extract_structured_data (fun _ _ => None) (fun _ => None)
    (LLMExtractor.of_ascii "2026-10-19") unit (fun _ _ => None) false "groq"
    (repeat 97%N 15000 ++ LLMExtractor.of_ascii "Opening Balance: 999.00") =
  LLMExtractor.extract_structured_data (fun _ _ => None) (fun _ => None)
    (LLMExtractor.of_ascii "2026-10-19") unit (fun _ _ => None) false "groq"
    (repeat 97%N 15000).
Proof.
  apply extract_offline_truncates. rewrite repeat_length. apply le_n.
Defined.

(** ** main.py: the salary entry of [edit_statement] *)

Section SalaryLemmas.
Import EditStatement.

Lemma insert_perm (t : Transaction) (l : list Transaction) :
  Permutation (insert_by_date t l) (t :: l).
Proof.
  induction l as [|x l IH]; simpl; [reflexivity|].
  destruct (date t <? date x); [reflexivity|].
  eapply perm_trans; [apply perm_skip, IH | apply perm_swap].
Qed.

Lemma insert_hdrel (x t : Transaction) (l : list Transaction) :
  HdRel (fun a b => date a <= date b) x l -> date x <= date t ->
  HdRel (fun a b => date a <= date b) x (insert_by_date t l).
Proof.
  intros Hh Hxt. destruct l as [|y l]; simpl; [constructor; exact Hxt|].
  destruct (date t <? date y); constructor; [exact Hxt|].
  inversion Hh; assumption.
Qed.

Lemma insert_sorted (t : Transaction) (l : list Transaction) :
  Sorted (fun a b => date a <= date b) l ->
  Sorted (fun a b => date a <= date b) (insert_by_date t l).
Proof.
  induction l as [|x l IH]; simpl; intros H; [repeat constructor|].
  destruct (date t <? date x) eqn:E.
  - apply Z.ltb_lt in E. constructor; [exact H | constructor; lia].
  - apply Z.ltb_ge in E. apply Sorted_inv in H as [Hs Hh].
    constructor; [apply IH, Hs | apply insert_hdrel; [exact Hh | lia]].
Qed.

Lemma fold_insert_props (l : list Transaction) :
  forall acc, Sorted (fun a b => date a <= date b) acc ->
  Sorted (fun a b => date a <= date b) (fold_left (fun acc t => insert_by_date t acc) l acc) /\
  Permutation (fold_left (fun acc t => insert_by_date t acc) l acc) (acc ++ l).
Proof.
  induction l as [|a l IH]; simpl; intros acc H.
  - split; [exact H | rewrite app_nil_r; reflexivity].
  - destruct (IH (insert_by_date a acc) (insert_sorted a acc H)) as [Hs Hp].
    split; [exact Hs|].
    eapply perm_trans; [exact Hp|].
    eapply perm_trans; [apply Permutation_app_tail, insert_perm|].
    apply Permutation_middle.
Qed.

Lemma insert_after_all (t : Transaction) (acc : list Transaction) :
  Forall (fun x => date x <= date t) acc -> insert_by_date t acc = acc ++ [t].
Proof.
  induction 1 as [|x acc Hx _ IH]; simpl; [reflexivity|].
  destruct (date t <? date x) eqn:E; [apply Z.ltb_lt in E; lia|].
  rewrite IH. reflexivity.
Qed.

Lemma ss_app_forall (acc l : list Transaction) (a : Transaction) :
  StronglySorted (fun x y => date x <= date y) (acc ++ a :: l) ->
  Forall (fun x => date x <= date a) acc.
Proof.
  induction acc as [|x acc IH]; simpl; intros H; [constructor|].
  inversion H as [|? ? Hs Hf]; subst. constructor.
  - rewrite Forall_forall in Hf. apply Hf. apply in_or_app. right. left. reflexivity.
  - apply IH, Hs.
Qed.

Lemma fold_insert_sorted (l : list Transaction) :
  forall acc, StronglySorted (fun x y => date x <= date y) (acc ++ l) ->
  fold_left (fun acc t => insert_by_date t acc) l acc = acc ++ l.
Proof.
  induction l as [|a l IH]; simpl; intros acc H; [rewrite app_nil_r; reflexivity|].
  rewrite (insert_after_all a acc (ss_app_forall acc l a H)).
  rewrite IH; [rewrite <- app_assoc; reflexivity|].
  rewrite <- app_assoc. exact H.
Qed.

Lemma filter_none_le (t : Transaction) (l : list Transaction) (x : Transaction) :
  date t < date x -> Forall (fun y => date x <= date y) l ->
  filter (fun y => date y <=? date t) l = [] /\ filter (fun y => date t <? date y) l = l.
Proof.
  intros Htx. induction 1 as [|y l Hy _ [IH1 IH2]]; simpl; [split; reflexivity|].
  replace (date y <=? date t) with false by (symmetry; apply Z.leb_gt; lia).
  replace (date t <? date y) with true by (symmetry; apply Z.ltb_lt; lia).
  rewrite IH1, IH2. split; reflexivity.
Qed.

Lemma insert_sorted_split (t : Transaction) (l : list Transaction) :
  StronglySorted (fun x y => date x <= date y) l ->
  insert_by_date t l =
    filter (fun x => date x <=? date t) l ++ t :: filter (fun x => date t <? date x) l.
Proof.
  induction l as [|x l IH]; simpl; intros H; [reflexivity|].
  inversion H as [|? ? Hs Hf]; subst.
  destruct (date t <? date x) eqn:E.
  - apply Z.ltb_lt in E.
    replace (date x <=? date t) with false by (symmetry; apply Z.leb_gt; lia).
    destruct (filter_none_le t l x E Hf) as [-> ->]. reflexivity.
  - apply Z.ltb_ge in E.
    replace (date x <=? date t) with true by (symmetry; apply Z.leb_le; lia).
    rewrite IH by exact Hs. reflexivity.
Qed.

Lemma py_truthy_nonzero (a : PrimFloat.float) :
  PrimFloat.eqb a 0.0%float = false -> LLMExtractor.py_truthy a = true.
Proof. intros Ha. unfold LLMExtractor.py_truthy. rewrite Ha. reflexivity. Qed.

End SalaryLemmas.

(** X19.  A non-zero salary entry is inserted so that the transaction list
    comes out sorted by date, holding exactly the old transactions and the
    new salary credit. *)
Theorem add_salary_sorted (txns : list Transaction) (a : PrimFloat.float) (d : Z) (desc : string) :
  PrimFloat.eqb a 0.0%float = false ->
  let out := EditStatement.add_salary txns (Some a) (Some d) desc in
  Sorted (fun x y => date x <= date y) out /\
  Permutation out (txns ++ [Transaction_validate d desc a 0.0%float 0.0%float None None]).
Proof.
  intros Ha. unfold EditStatement.add_salary. rewrite (py_truthy_nonzero a Ha).
  cbv zeta. unfold EditStatement.sort_by_date.
  exact (fold_insert_props _ [] (Sorted_nil _)).
Qed.

Lemma add_salary_sorted_witness :
  Sorted (fun x y => date x <= date y)
    (EditStatement.add_salary unsorted_txns (Some 5000.0%float) (Some 738888) "Salary").
Proof.
  refine (proj1 (add_salary_sorted unsorted_txns 5000.0%float 738888 "Salary" _)).
  vm_compute. reflexivity.
Defined.

(** X20.  On a list already sorted by date, the salary entry goes after
    every transaction dated on or before its date and before every later
    one; the other transactions keep their order. *)
Theorem add_salary_sorted_input (txns : list Transaction) (a : PrimFloat.float) (d : Z)
    (desc : string) :
  PrimFloat.eqb a 0.0%float = false ->
  Sorted (fun x y => date x <= date y) txns ->
  EditStatement.add_salary txns (Some a) (Some d) desc =
    filter (fun t => date t <=? d) txns ++
    Transaction_validate d desc a 0.0%float 0.0%float None None ::
    filter (fun t => d <? date t) txns.
Proof.
  intros Ha Hs. unfold EditStatement.add_salary. rewrite (py_truthy_nonzero a Ha).
  cbv zeta. unfold EditStatement.sort_by_date. rewrite fold_left_app.
  assert (Hss : StronglySorted (fun x y => date x <= date y) txns).
  { apply Sorted_StronglySorted; [intros x y z; lia | exact Hs]. }
  rewrite (fold_insert_sorted txns [] Hss). cbn [fold_left].
  rewrite (insert_sorted_split _ _ Hss). reflexivity.
Qed.

Lemma add_salary_sorted_input_witness :
  EditStatement.add_salary (transactions scenario_statement) (Some 5000.0%float)
    (Some 738888) "Salary" =
  [example_txn 738886 "Salary" 1000.0%float 0.0%float;
   Transaction_validate 738888 "Salary" 5000.0%float 0.0%float 0.0%float None None;
   example_txn 738890 "ATM" 0.0%float 200.0%float].
Proof.
  rewrite add_salary_sorted_input.
  - reflexivity.
  - vm_compute. reflexivity.
  - cbn. repeat constructor. vm_compute. discriminate.
Defined.

(** ** processors/page_detector.py *)

Section PageLemmas.
Import PageDetector.

Lemma insert_unique_in (x y : Z) (l : list Z) :
  In y (insert_unique x l) <-> y = x \/ In y l.
Proof.
  induction l as [|z l IH]; simpl.
  - split; [intros [H|[]]; left; symmetry; exact H | intros [H|[]]; left; symmetry; exact H].
  - destruct (x <? z) eqn:E1; [simpl; split; intros H; [|]; intuition congruence|].
    destruct (x =? z) eqn:E2.
    + apply Z.eqb_eq in E2. subst z. simpl. intuition congruence.
    + simpl. rewrite IH. intuition congruence.
Qed.

Lemma insert_unique_hdrel (x y : Z) (r : list Z) :
  HdRel Z.lt y r -> y < x -> HdRel Z.lt y (insert_unique x r).
Proof.
  intros Hh Hyx. destruct r as [|z r]; simpl; [constructor; exact Hyx|].
  destruct (x <? z); [constructor; exact Hyx|].
  destruct (x =? z); [exact Hh|]. inversion Hh. constructor. assumption.
Qed.

Lemma insert_unique_sorted (x : Z) (l : list Z) :
  Sorted Z.lt l -> Sorted Z.lt (insert_unique x l).
Proof.
  induction l as [|z l IH]; simpl; intros H; [repeat constructor|].
  destruct (x <? z) eqn:E1.
  - apply Z.ltb_lt in E1. constructor; [exact H | constructor; exact E1].
  - destruct (x =? z) eqn:E2; [exact H|].
    apply Z.ltb_ge in E1. apply Z.eqb_neq in E2.
    apply Sorted_inv in H as [Hs Hh].
    constructor; [apply IH, Hs | apply insert_unique_hdrel; [exact Hh | lia]].
Qed.

Lemma sorted_set_props (l : list Z) :
  Sorted Z.lt (sorted_set l) /\ (forall p, In p (sorted_set l) <-> In p l).
Proof.
  induction l as [|x l [IHs IHi]]; simpl.
  - split; [constructor | tauto].
  - split; [apply insert_unique_sorted, IHs|].
    intros p. rewrite insert_unique_in, IHi. intuition congruence.
Qed.

Lemma py_range_in (a b p : Z) : In p (py_range a b) <-> a <= p < b.
Proof.
  unfold py_range. rewrite in_map_iff. split.
  - intros (k & <- & Hk). apply in_seq in Hk. lia.
  - intros Hp. exists (Z.to_nat (p - a)). split; [lia|].
    apply in_seq. lia.
Qed.

Lemma fold_pages (rs : list PageRange) :
  forall acc,
  fold_left (fun pages pr => pages ++ py_range (start pr) (end_ pr + 1)) rs acc =
  acc ++ flat_map (fun pr => py_range (start pr) (end_ pr + 1)) rs.
Proof.
  induction rs as [|r rs IH]; simpl; intros acc; [rewrite app_nil_r; reflexivity|].
  rewrite IH, app_assoc. reflexivity.
Qed.

End PageLemmas.

(** X21.  [get_page_numbers] lists each page covered by some range
    (from [start] to [end] inclusive) exactly once, in increasing order,
    and no other page. *)
Theorem get_page_numbers_spec (page_ranges : list PageRange) :
  StronglySorted Z.lt (PageDetector.get_page_numbers page_ranges) /\
  (forall p, In p (PageDetector.get_page_numbers page_ranges) <->
             exists pr, In pr page_ranges /\ start pr <= p <= end_ pr).
Proof.
  unfold PageDetector.get_page_numbers. cbv zeta. rewrite fold_pages. cbn [app].
  destruct (sorted_set_props
              (flat_map (fun pr => PageDetector.py_range (start pr) (end_ pr + 1))
                 page_ranges)) as [Hs Hi].
  split.
  - apply Sorted_StronglySorted; [intros x y z; lia | exact Hs].
  - intros p. rewrite Hi, in_flat_map. split.
    + intros (pr & Hpr & Hp). apply py_range_in in Hp. exists pr. split; [exact Hpr | lia].
    + intros (pr & Hpr & Hp). exists pr. split; [exact Hpr|]. apply py_range_in. lia.
Qed.

